(** * atk-esp32: the MCP tool server and the device state machine

    A shallow embedding of [main/device_state_machine.cc] and of the
    protocol part of [main/mcp_server.cc], with the properties of the
    written specification stated and proved over it.

    Conventions.  C++ [int] and [size_t] values are carried as [Z]; the
    places where a machine width could matter are pointed out where they
    occur.  Logging ([ESP_LOGx]) has no observable effect and is left out.
    Everything a function sends or schedules is returned as a list of
    [Effect]s, in program order. *)

From Stdlib Require Import List Bool ZArith Lia Ascii String DecimalString.
From Stdlib Require DecimalPos DecimalZ.
Import ListNotations.

Set Implicit Arguments.

(* ================================================================== *)
(** * Device state machine ([device_state.h], [device_state_machine.cc]) *)
(* ================================================================== *)

Module DeviceStateMachine.

(** [enum DeviceState], constructors in declaration order. *)
Inductive DeviceState : Set :=
| kDeviceStateUnknown
| kDeviceStateStarting
| kDeviceStateWifiConfiguring
| kDeviceStateIdle
| kDeviceStateConnecting
| kDeviceStateListening
| kDeviceStateSpeaking
| kDeviceStateUpgrading
| kDeviceStateActivating
| kDeviceStateAudioTesting
| kDeviceStateFatalError.

Definition DeviceState_eq_dec (a b : DeviceState) : {a = b} + {a <> b}.
Proof. decide equality. Defined.

(** [from == to] on the enum. *)
Definition state_eqb (a b : DeviceState) : bool :=
  if DeviceState_eq_dec a b then true else false.

Infix "==" := state_eqb (at level 70, no associativity).

(** The value [enum] gives each state, used to index [STATE_STRINGS]. *)
Definition state_index (s : DeviceState) : Z :=
  match s with
  | kDeviceStateUnknown => 0
  | kDeviceStateStarting => 1
  | kDeviceStateWifiConfiguring => 2
  | kDeviceStateIdle => 3
  | kDeviceStateConnecting => 4
  | kDeviceStateListening => 5
  | kDeviceStateSpeaking => 6
  | kDeviceStateUpgrading => 7
  | kDeviceStateActivating => 8
  | kDeviceStateAudioTesting => 9
  | kDeviceStateFatalError => 10
  end.

Definition STATE_STRINGS : list string :=
  [ "unknown"; "starting"; "wifi_configuring"; "idle"; "connecting";
    "listening"; "speaking"; "upgrading"; "activating"; "audio_testing";
    "fatal_error"; "invalid_state" ]%string.

Definition GetStateName (state : DeviceState) : string :=
  if ((0 <=? state_index state) && (state_index state <=? state_index kDeviceStateFatalError))%Z
  then nth (Z.to_nat (state_index state)) STATE_STRINGS "invalid_state"%string
  else nth (Z.to_nat (state_index kDeviceStateFatalError + 1)) STATE_STRINGS "invalid_state"%string.

(** [DeviceStateMachine::IsValidTransition]: the early return for equal
    states, then the [switch] on [from].  The [default] arm of the source
    is not reachable from a value of the enumeration. *)
Definition IsValidTransition (from to : DeviceState) : bool :=
  if from == to then true
  else
    match from with
    | kDeviceStateUnknown =>
        to == kDeviceStateStarting
    | kDeviceStateStarting =>
        (to == kDeviceStateWifiConfiguring) || (to == kDeviceStateActivating)
    | kDeviceStateWifiConfiguring =>
        (to == kDeviceStateActivating) || (to == kDeviceStateAudioTesting)
    | kDeviceStateAudioTesting =>
        to == kDeviceStateWifiConfiguring
    | kDeviceStateActivating =>
        (to == kDeviceStateUpgrading) || (to == kDeviceStateIdle)
        || (to == kDeviceStateWifiConfiguring)
    | kDeviceStateUpgrading =>
        (to == kDeviceStateIdle) || (to == kDeviceStateActivating)
    | kDeviceStateIdle =>
        (to == kDeviceStateConnecting) || (to == kDeviceStateListening)
        || (to == kDeviceStateSpeaking) || (to == kDeviceStateActivating)
        || (to == kDeviceStateUpgrading) || (to == kDeviceStateWifiConfiguring)
    | kDeviceStateConnecting =>
        (to == kDeviceStateIdle) || (to == kDeviceStateListening)
    | kDeviceStateListening =>
        (to == kDeviceStateSpeaking) || (to == kDeviceStateIdle)
    | kDeviceStateSpeaking =>
        (to == kDeviceStateListening) || (to == kDeviceStateIdle)
    | kDeviceStateFatalError =>
        false
    end.

(** The transition table as the specification's glossary writes it, one
    row per source state.  It is compared with [IsValidTransition] below. *)
Definition transition_table : list (DeviceState * list DeviceState) :=
  [ (kDeviceStateUnknown, [kDeviceStateStarting]);
    (kDeviceStateStarting, [kDeviceStateWifiConfiguring; kDeviceStateActivating]);
    (kDeviceStateWifiConfiguring, [kDeviceStateActivating; kDeviceStateAudioTesting]);
    (kDeviceStateAudioTesting, [kDeviceStateWifiConfiguring]);
    (kDeviceStateActivating,
      [kDeviceStateUpgrading; kDeviceStateIdle; kDeviceStateWifiConfiguring]);
    (kDeviceStateUpgrading, [kDeviceStateIdle; kDeviceStateActivating]);
    (kDeviceStateIdle,
      [kDeviceStateConnecting; kDeviceStateListening; kDeviceStateSpeaking;
       kDeviceStateActivating; kDeviceStateUpgrading; kDeviceStateWifiConfiguring]);
    (kDeviceStateConnecting, [kDeviceStateIdle; kDeviceStateListening]);
    (kDeviceStateListening, [kDeviceStateSpeaking; kDeviceStateIdle]);
    (kDeviceStateSpeaking, [kDeviceStateListening; kDeviceStateIdle]);
    (kDeviceStateFatalError, []) ].

(** [(from, to)] is an edge of the table. *)
Definition table_edge (from to : DeviceState) : bool :=
  existsb (fun row => (fst row == from) && existsb (fun t => t == to) (snd row))
          transition_table.

Section Machine.

(** [StateCallback] is [std::function<void(DeviceState, DeviceState)>]; what
    a callback does is outside the machine, so a call of one is recorded as
    an [Invocation] and not run. *)
Variable StateCallback : Type.

Record Invocation : Type := Invoke {
  invoked : StateCallback;
  old_state : DeviceState;
  new_state : DeviceState
}.

(** The members of the class.  [current_state_] is a [std::atomic]; the
    embedding is of one thread of control, which is the case the
    specification states its transition properties for. *)
Record Machine : Type := mkMachine {
  current_state_ : DeviceState;
  listeners_ : list (Z * StateCallback);
  next_listener_id_ : Z
}.

Definition CanTransitionTo (m : Machine) (target : DeviceState) : bool :=
  IsValidTransition (current_state_ m) target.

(** [next_listener_id_] is an [int] and [next_listener_id_++] leaves its
    range at the largest [int]; the counter is carried as a [Z], which
    agrees with it below that value.  The theorems that read the counter
    after a registration assume it is below [INT_MAX]. *)
Definition AddStateChangeListener (m : Machine) (callback : StateCallback)
  : Z * Machine :=
  let id := next_listener_id_ m in
  (id, mkMachine (current_state_ m)
                 (listeners_ m ++ [(id, callback)])
                 (id + 1)).

Definition RemoveStateChangeListener (m : Machine) (listener_id : Z) : Machine :=
  mkMachine (current_state_ m)
            (filter (fun p => negb (fst p =? listener_id)%Z) (listeners_ m))
            (next_listener_id_ m).

(** [NotifyStateChange]: the callbacks are copied under the lock and then
    each is called once, in registration order, with [(old, new)]. *)
Definition NotifyStateChange (m : Machine) (old new : DeviceState)
  : list Invocation :=
  let callbacks_copy := map snd (listeners_ m) in
  map (fun cb => Invoke cb old new) callbacks_copy.

(** [TransitionTo]: the returned triple is the [bool] result, the machine
    afterwards and the callbacks that were called. *)
Definition TransitionTo (m : Machine) (new_state : DeviceState)
  : bool * Machine * list Invocation :=
  let old_state := current_state_ m in
  if old_state == new_state then (true, m, [])
  else if negb (IsValidTransition old_state new_state) then (false, m, [])
  else
    let m' := mkMachine new_state (listeners_ m) (next_listener_id_ m) in
    (true, m', NotifyStateChange m' old_state new_state).

(** ** Properties of the state machine *)

Lemma state_eqb_eq (a b : DeviceState) : (a == b) = true <-> a = b.
Proof. unfold state_eqb; destruct (DeviceState_eq_dec a b); intuition congruence. Qed.

Lemma state_eqb_refl (a : DeviceState) : (a == a) = true.
Proof. now apply state_eqb_eq. Qed.

Lemma state_eqb_neq (a b : DeviceState) : (a == b) = false <-> a <> b.
Proof. unfold state_eqb; destruct (DeviceState_eq_dec a b); intuition congruence. Qed.

(** The [switch] of the source and the table of the specification accept
    the same pairs; the source accepts the equal pairs in addition. *)
Lemma IsValidTransition_table (from to : DeviceState) :
  IsValidTransition from to = (from == to) || table_edge from to.
Proof. destruct from, to; reflexivity. Qed.

(** No row of the table lists its own source state. *)
Lemma table_edge_irrefl (s : DeviceState) : table_edge s s = false.
Proof. destruct s; reflexivity. Qed.

Lemma table_edge_neq (from to : DeviceState) :
  table_edge from to = true -> from <> to.
Proof. intros E ->; rewrite table_edge_irrefl in E; discriminate. Qed.

Lemma FatalError_no_edge (to : DeviceState) :
  table_edge kDeviceStateFatalError to = false.
Proof. destruct to; reflexivity. Qed.

Lemma TransitionTo_same (m : Machine) :
  TransitionTo m (current_state_ m) = (true, m, []).
Proof. unfold TransitionTo; now rewrite state_eqb_refl. Qed.

Lemma TransitionTo_edge (m : Machine) (to : DeviceState) :
  table_edge (current_state_ m) to = true ->
  TransitionTo m to =
    (true,
     mkMachine to (listeners_ m) (next_listener_id_ m),
     map (fun l => Invoke (snd l) (current_state_ m) to) (listeners_ m)).
Proof.
  intros E. pose proof (table_edge_neq E) as N.
  apply state_eqb_neq in N.
  unfold TransitionTo. rewrite N, IsValidTransition_table, N, E. cbn.
  unfold NotifyStateChange; cbn. now rewrite map_map.
Qed.

Lemma TransitionTo_rejected (m : Machine) (to : DeviceState) :
  current_state_ m <> to ->
  table_edge (current_state_ m) to = false ->
  TransitionTo m to = (false, m, []).
Proof.
  intros N E. apply state_eqb_neq in N.
  unfold TransitionTo. now rewrite N, IsValidTransition_table, N, E.
Qed.

(** C7.  Let [from] be the current state.  If [(from, to)] is an edge of
    the transition table, [TransitionTo to] returns [true], the current
    state becomes [to] (listeners and identifier counter untouched) and one
    notification round fires: every registered listener is called exactly
    once, with [(from, to)].  If [from = to] it returns [true], the machine
    is unchanged and nothing is called.  For every other pair it returns
    [false], the machine is unchanged and nothing is called.  The fatal
    error state has no outgoing edge, so every transition out of it to
    another state is refused. *)
Theorem TransitionTo_follows_table (m : Machine) (to : DeviceState) :
  (table_edge (current_state_ m) to = true ->
     TransitionTo m to =
       (true,
        mkMachine to (listeners_ m) (next_listener_id_ m),
        map (fun l => Invoke (snd l) (current_state_ m) to) (listeners_ m)))
  /\ (current_state_ m = to -> TransitionTo m to = (true, m, []))
  /\ (current_state_ m <> to -> table_edge (current_state_ m) to = false ->
        TransitionTo m to = (false, m, []))
  /\ (current_state_ m = kDeviceStateFatalError -> to <> kDeviceStateFatalError ->
        TransitionTo m to = (false, m, [])).
Proof.
  split; [ | split; [ | split ] ].
  - apply TransitionTo_edge.
  - intros <-. apply TransitionTo_same.
  - apply TransitionTo_rejected.
  - intros F N. apply TransitionTo_rejected.
    + congruence.
    + rewrite F. apply FatalError_no_edge.
Qed.

End Machine.

(** The theorem at a machine with two listeners, in the idle state: the
    legal move to listening, the silent self-transition, the refused move to
    starting, and a refused move out of the fatal error state. *)
Lemma TransitionTo_follows_table_witness :
  let idle := mkMachine kDeviceStateIdle [(0%Z, 7%nat); (1%Z, 9%nat)] 2%Z in
  let fatal := mkMachine kDeviceStateFatalError [(0%Z, 7%nat)] 1%Z in
  TransitionTo idle kDeviceStateListening =
    (true,
     mkMachine kDeviceStateListening [(0%Z, 7%nat); (1%Z, 9%nat)] 2%Z,
     [Invoke 7%nat kDeviceStateIdle kDeviceStateListening;
      Invoke 9%nat kDeviceStateIdle kDeviceStateListening])
  /\ TransitionTo idle kDeviceStateIdle = (true, idle, [])
  /\ TransitionTo idle kDeviceStateStarting = (false, idle, [])
  /\ TransitionTo fatal kDeviceStateIdle = (false, fatal, []).
Proof.
  intros idle fatal.
  destruct (TransitionTo_follows_table idle kDeviceStateListening) as (H1 & _).
  destruct (TransitionTo_follows_table idle kDeviceStateIdle) as (_ & H2 & _).
  destruct (TransitionTo_follows_table idle kDeviceStateStarting) as (_ & _ & H3 & _).
  destruct (TransitionTo_follows_table fatal kDeviceStateIdle) as (_ & _ & _ & H4).
  split; [ | split; [ | split ] ].
  - apply H1. reflexivity.
  - apply H2. reflexivity.
  - apply H3; [discriminate | reflexivity].
  - apply H4; [reflexivity | discriminate].
Defined.

(** ** The rest of the class: names, listeners, sequences of transitions *)

Section Listeners.

Variable StateCallback : Type.

(** A caller that asks for the states [targets] one after the other,
    whatever each call returns: the results, the machine at the end and all
    the callbacks called, in order. *)
Fixpoint run (m : Machine StateCallback) (targets : list DeviceState)
  : list bool * Machine StateCallback * list (Invocation StateCallback) :=
  match targets with
  | [] => ([], m, [])
  | target :: rest =>
      let '(ok, m1, calls) := TransitionTo m target in
      let '(oks, m2, calls') := run m1 rest in
      (ok :: oks, m2, calls ++ calls')
  end.

(** A sequence of targets that leads from the initial state to [s]. *)
Definition route (s : DeviceState) : list DeviceState :=
  match s with
  | kDeviceStateUnknown => []
  | kDeviceStateStarting => [kDeviceStateStarting]
  | kDeviceStateWifiConfiguring => [kDeviceStateStarting; kDeviceStateWifiConfiguring]
  | kDeviceStateActivating => [kDeviceStateStarting; kDeviceStateActivating]
  | kDeviceStateAudioTesting =>
      [kDeviceStateStarting; kDeviceStateWifiConfiguring; kDeviceStateAudioTesting]
  | kDeviceStateUpgrading =>
      [kDeviceStateStarting; kDeviceStateActivating; kDeviceStateUpgrading]
  | kDeviceStateIdle =>
      [kDeviceStateStarting; kDeviceStateActivating; kDeviceStateIdle]
  | kDeviceStateConnecting =>
      [kDeviceStateStarting; kDeviceStateActivating; kDeviceStateIdle;
       kDeviceStateConnecting]
  | kDeviceStateListening =>
      [kDeviceStateStarting; kDeviceStateActivating; kDeviceStateIdle;
       kDeviceStateListening]
  | kDeviceStateSpeaking =>
      [kDeviceStateStarting; kDeviceStateActivating; kDeviceStateIdle;
       kDeviceStateSpeaking]
  | kDeviceStateFatalError => []
  end.

(** The identifiers of the registered listeners are pairwise distinct and
    below the counter. *)
Definition listeners_ok (m : Machine StateCallback) : Prop :=
  NoDup (map fst (listeners_ m))
  /\ Forall (fun l => (fst l < next_listener_id_ m)%Z) (listeners_ m).

(** The largest value of the [int] counter [next_listener_id_]. *)
Definition INT_MAX : Z := 2147483647.

(** X1.  [GetStateName] tells the states apart: two states have the same
    name only when they are the same state, and no state is given the
    name kept for values outside the enumeration. *)
Theorem GetStateName_distinct (a b : DeviceState) :
  String.eqb (GetStateName a) (GetStateName b) = (a == b)
  /\ String.eqb (GetStateName a) "invalid_state" = false.
Proof. destruct a, b; split; reflexivity. Qed.

(** X2.  [TransitionTo] returns what [CanTransitionTo] answers beforehand;
    afterwards the current state is the target when it returned [true]
    and the old state otherwise, and the listeners and the identifier
    counter are the same as before. *)
Theorem TransitionTo_result (m : Machine StateCallback) (target : DeviceState) :
  let '(ok, m', _) := TransitionTo m target in
  ok = CanTransitionTo m target
  /\ current_state_ m' = (if ok then target else current_state_ m)
  /\ listeners_ m' = listeners_ m
  /\ next_listener_id_ m' = next_listener_id_ m.
Proof.
  unfold TransitionTo, CanTransitionTo.
  destruct (current_state_ m == target) eqn:E.
  - apply state_eqb_eq in E. rewrite <- E.
    unfold IsValidTransition. rewrite state_eqb_refl. auto.
  - destruct (IsValidTransition (current_state_ m) target); cbn; auto.
Qed.

Lemma table_edge_target (from to : DeviceState) :
  table_edge from to = true ->
  to <> kDeviceStateUnknown /\ to <> kDeviceStateFatalError.
Proof. destruct from, to; cbn; intros E; split; congruence. Qed.

Lemma TransitionTo_state (m : Machine StateCallback) (target : DeviceState) :
  current_state_ (snd (fst (TransitionTo m target))) = current_state_ m
  \/ (table_edge (current_state_ m) target = true
      /\ current_state_ (snd (fst (TransitionTo m target))) = target).
Proof.
  destruct (DeviceState_eq_dec (current_state_ m) target) as [E | N].
  - left. rewrite <- E, TransitionTo_same. reflexivity.
  - destruct (table_edge (current_state_ m) target) eqn:T.
    + right. rewrite (TransitionTo_edge m target T). auto.
    + left. rewrite (TransitionTo_rejected m N T). reflexivity.
Qed.

Lemma run_cons (m : Machine StateCallback) (target : DeviceState)
    (rest : list DeviceState) :
  snd (fst (run m (target :: rest)))
  = snd (fst (run (snd (fst (TransitionTo m target))) rest)).
Proof.
  cbn [run]. destruct (TransitionTo m target) as [[ok m1] calls].
  cbn [fst snd]. now destruct (run m1 rest) as [[oks m2] calls'].
Qed.

(** X3.  No sequence of transitions enters the unknown state or the fatal
    error state: a machine found in one of them after any sequence of
    calls was in it from the start.  And a machine in the fatal error
    state stays there whatever is asked. *)
Theorem run_never_enters_unknown_or_fatal (m : Machine StateCallback)
    (targets : list DeviceState) :
  (current_state_ (snd (fst (run m targets))) = kDeviceStateUnknown ->
   current_state_ m = kDeviceStateUnknown)
  /\ (current_state_ (snd (fst (run m targets))) = kDeviceStateFatalError ->
      current_state_ m = kDeviceStateFatalError)
  /\ (current_state_ m = kDeviceStateFatalError ->
      current_state_ (snd (fst (run m targets))) = kDeviceStateFatalError).
Proof.
  revert m. induction targets as [|target rest IH]; intros m.
  - cbn. auto.
  - rewrite run_cons.
    destruct (IH (snd (fst (TransitionTo m target)))) as (IH1 & IH2 & IH3).
    destruct (TransitionTo_state m target) as [E | [T E]].
    + rewrite E in *. auto.
    + destruct (table_edge_target _ _ T) as [NU NF].
      split; [|split].
      * intros H. apply IH1 in H. congruence.
      * intros H. apply IH2 in H. congruence.
      * intros H. rewrite H, FatalError_no_edge in T. discriminate.
Qed.

(** X4.  Every state except the fatal error state is reached from the
    unknown state by legal transitions: along [route s] every call returns
    [true] and the machine ends in [s]. *)
Theorem every_operating_state_reachable (m : Machine StateCallback)
    (s : DeviceState) :
  current_state_ m = kDeviceStateUnknown ->
  s <> kDeviceStateFatalError ->
  Forall (fun ok => ok = true) (fst (fst (run m (route s))))
  /\ current_state_ (snd (fst (run m (route s)))) = s.
Proof.
  intros Hm Hs. destruct m as [state listeners next]. cbn in Hm. subst state.
  destruct s; try congruence; cbn; split; repeat constructor.
Qed.

(** X5.  [AddStateChangeListener], on a machine whose identifiers are
    distinct and below a counter that has not reached the largest [int],
    returns an identifier no registered listener has, appends the callback
    after the registered ones, and keeps the identifiers distinct and
    below the counter; the current state is not touched. *)
Theorem AddStateChangeListener_fresh (m : Machine StateCallback)
    (callback : StateCallback) :
  listeners_ok m ->
  (next_listener_id_ m < INT_MAX)%Z ->
  let (id, m') := AddStateChangeListener m callback in
  ~ In id (map fst (listeners_ m))
  /\ listeners_ m' = listeners_ m ++ [(id, callback)]
  /\ current_state_ m' = current_state_ m
  /\ listeners_ok m'
  /\ (next_listener_id_ m' <= INT_MAX)%Z.
Proof.
  intros [Hdistinct Hbelow] Hmax. cbn.
  assert (Hfresh : ~ In (next_listener_id_ m) (map fst (listeners_ m))).
  { intros Hin. apply in_map_iff in Hin as (l & El & Hl).
    apply (proj1 (Forall_forall _ _) Hbelow) in Hl. lia. }
  split; [exact Hfresh | split; [reflexivity | split; [reflexivity | split]]].
  - split; cbn.
    + rewrite map_app. cbn. apply NoDup_app; auto.
      * constructor; [intros [] | constructor].
      * intros a Ha [<- | []]. auto.
    + apply Forall_app. split.
      * eapply Forall_impl; [|exact Hbelow]. cbn. intros; lia.
      * constructor; [cbn; lia | constructor].
  - lia.
Qed.

Lemma filter_all {A : Type} (f : A -> bool) (l : list A) :
  (forall x, In x l -> f x = true) -> filter f l = l.
Proof.
  induction l as [|x l IH]; cbn; intros H; [reflexivity|].
  rewrite (H x) by now left. f_equal. apply IH. intros; apply H; now right.
Qed.

(** X6.  On a machine whose identifiers are distinct and below a counter
    that has not reached the largest [int], removing a listener by the
    identifier [AddStateChangeListener] has just returned undoes the
    registration: the listeners are those from before, in the same order.
    The counter is not given back: it stays one above its old value. *)
Theorem Remove_after_Add (m : Machine StateCallback) (callback : StateCallback) :
  listeners_ok m ->
  (next_listener_id_ m < INT_MAX)%Z ->
  let (id, m') := AddStateChangeListener m callback in
  listeners_ (RemoveStateChangeListener m' id) = listeners_ m
  /\ current_state_ (RemoveStateChangeListener m' id) = current_state_ m
  /\ next_listener_id_ (RemoveStateChangeListener m' id) = (next_listener_id_ m + 1)%Z.
Proof.
  intros [_ Hbelow] _. cbn. split; [|split; reflexivity].
  rewrite filter_app. cbn. rewrite Z.eqb_refl. cbn. rewrite app_nil_r.
  apply filter_all. intros l Hl.
  apply (proj1 (Forall_forall _ _) Hbelow) in Hl.
  apply negb_true_iff, Z.eqb_neq. lia.
Qed.

(** X7.  After [RemoveStateChangeListener] no listener has the identifier
    removed, the other listeners are kept in their order, and a legal
    transition calls exactly those; removing an identifier that no
    listener has changes nothing. *)
Theorem Remove_stops_notifications (m : Machine StateCallback) (listener_id : Z)
    (to : DeviceState) :
  ~ In listener_id (map fst (listeners_ (RemoveStateChangeListener m listener_id)))
  /\ (table_edge (current_state_ m) to = true ->
      snd (TransitionTo (RemoveStateChangeListener m listener_id) to)
      = map (fun l => Invoke (snd l) (current_state_ m) to)
            (filter (fun l => negb (fst l =? listener_id)%Z) (listeners_ m)))
  /\ (~ In listener_id (map fst (listeners_ m)) ->
      RemoveStateChangeListener m listener_id = m).
Proof.
  split; [|split].
  - cbn. intros Hin. apply in_map_iff in Hin as (l & El & Hl).
    apply filter_In in Hl as [_ Hl]. apply negb_true_iff, Z.eqb_neq in Hl. auto.
  - intros T.
    rewrite (TransitionTo_edge (RemoveStateChangeListener m listener_id) to T).
    reflexivity.
  - intros Hnot. destruct m as [state listeners next].
    unfold RemoveStateChangeListener. cbn in *. f_equal.
    apply filter_all. intros l Hl. apply negb_true_iff, Z.eqb_neq.
    intros E. apply Hnot. apply in_map_iff. now exists l.
Qed.

(** X8.  A listener added before a legal transition is called by it, once
    and after all the listeners registered earlier. *)
Theorem added_listener_notified_last (m : Machine StateCallback)
    (callback : StateCallback) (to : DeviceState) :
  table_edge (current_state_ m) to = true ->
  snd (TransitionTo (snd (AddStateChangeListener m callback)) to)
  = snd (TransitionTo m to) ++ [Invoke callback (current_state_ m) to].
Proof.
  intros T.
  rewrite (TransitionTo_edge m to T).
  rewrite (TransitionTo_edge (snd (AddStateChangeListener m callback)) to T).
  cbn. now rewrite map_app.
Qed.

End Listeners.

Lemma run_never_enters_unknown_or_fatal_witness :
  let fatal := mkMachine kDeviceStateFatalError [(0%Z, 7%nat)] 1%Z in
  let unknown := mkMachine kDeviceStateUnknown [(0%Z, 7%nat)] 1%Z in
  current_state_ unknown = kDeviceStateUnknown
  /\ current_state_ fatal = kDeviceStateFatalError
  /\ current_state_ (snd (fst (run fatal [kDeviceStateIdle; kDeviceStateStarting])))
     = kDeviceStateFatalError.
Proof.
  intros fatal unknown.
  destruct (run_never_enters_unknown_or_fatal unknown
              [kDeviceStateUnknown; kDeviceStateIdle]) as (H1 & _ & _).
  destruct (run_never_enters_unknown_or_fatal fatal [kDeviceStateFatalError])
    as (_ & H2 & _).
  destruct (run_never_enters_unknown_or_fatal fatal
              [kDeviceStateIdle; kDeviceStateStarting]) as (_ & _ & H3).
  split; [ | split ].
  - apply H1. reflexivity.
  - apply H2. reflexivity.
  - apply H3. reflexivity.
Defined.

Lemma every_operating_state_reachable_witness :
  let m := mkMachine kDeviceStateUnknown [(0%Z, 7%nat)] 1%Z in
  Forall (fun ok => ok = true) (fst (fst (run m (route kDeviceStateSpeaking))))
  /\ current_state_ (snd (fst (run m (route kDeviceStateSpeaking))))
     = kDeviceStateSpeaking.
Proof.
  intros m.
  apply (every_operating_state_reachable m (s := kDeviceStateSpeaking)).
  - reflexivity.
  - discriminate.
Defined.

Lemma listeners_ok_sample :
  listeners_ok (mkMachine kDeviceStateIdle [(0%Z, 7%nat); (2%Z, 9%nat)] 3%Z).
Proof.
  split; cbn.
  - constructor; [cbn; intuition discriminate|].
    constructor; [intros [] | constructor].
  - repeat constructor; cbn; lia.
Defined.

Lemma AddStateChangeListener_fresh_witness :
  let m := mkMachine kDeviceStateIdle [(0%Z, 7%nat); (2%Z, 9%nat)] 3%Z in
  let (id, m') := AddStateChangeListener m 11%nat in
  ~ In id (map fst (listeners_ m))
  /\ listeners_ m' = listeners_ m ++ [(id, 11%nat)]
  /\ current_state_ m' = current_state_ m
  /\ listeners_ok m'
  /\ (next_listener_id_ m' <= INT_MAX)%Z.
Proof.
  intros m.
  apply (@AddStateChangeListener_fresh nat m 11%nat listeners_ok_sample).
  reflexivity.
Defined.

Lemma Remove_after_Add_witness :
  let m := mkMachine kDeviceStateIdle [(0%Z, 7%nat); (2%Z, 9%nat)] 3%Z in
  let (id, m') := AddStateChangeListener m 11%nat in
  listeners_ (RemoveStateChangeListener m' id) = listeners_ m
  /\ current_state_ (RemoveStateChangeListener m' id) = current_state_ m
  /\ next_listener_id_ (RemoveStateChangeListener m' id) = (next_listener_id_ m + 1)%Z.
Proof.
  intros m.
  apply (@Remove_after_Add nat m 11%nat listeners_ok_sample).
  reflexivity.
Defined.

Lemma Remove_stops_notifications_witness :
  let m := mkMachine kDeviceStateIdle [(0%Z, 7%nat); (2%Z, 9%nat)] 3%Z in
  snd (TransitionTo (RemoveStateChangeListener m 0) kDeviceStateListening)
  = [Invoke 9%nat kDeviceStateIdle kDeviceStateListening]
  /\ RemoveStateChangeListener m 5 = m.
Proof.
  intros m.
  destruct (Remove_stops_notifications m 0 kDeviceStateListening) as (_ & H1 & _).
  destruct (Remove_stops_notifications m 5 kDeviceStateListening) as (_ & _ & H2).
  split.
  - apply H1. reflexivity.
  - apply H2. cbn. intuition discriminate.
Defined.

Lemma added_listener_notified_last_witness :
  let m := mkMachine kDeviceStateIdle [(0%Z, 7%nat); (2%Z, 9%nat)] 3%Z in
  snd (TransitionTo (snd (AddStateChangeListener m 11%nat)) kDeviceStateListening)
  = snd (TransitionTo m kDeviceStateListening)
    ++ [Invoke 11%nat kDeviceStateIdle kDeviceStateListening].
Proof.
  intros m.
  apply (@added_listener_notified_last nat m 11%nat kDeviceStateListening).
  reflexivity.
Defined.

End DeviceStateMachine.

(* ================================================================== *)
(** * MCP server ([mcp_server.cc]) *)
(* ================================================================== *)

Module McpServer.

Infix "+++" := String.append (right associativity, at level 60).

(** ** Text *)

(** The double quote character, and a text between double quotes. *)
Definition dquote : string := String "034"%char EmptyString.
Definition quoted (s : string) : string := dquote +++ s +++ dquote.

(** [std::string::length], [empty], [back] and [pop_back]. *)
Definition len (s : string) : Z := Z.of_nat (String.length s).

Definition empty (s : string) : bool :=
  match s with EmptyString => true | String _ _ => false end.

Fixpoint back (s : string) : option ascii :=
  match s with
  | EmptyString => None
  | String c EmptyString => Some c
  | String _ rest => back rest
  end.

Fixpoint pop_back (s : string) : string :=
  match s with
  | EmptyString => EmptyString
  | String _ EmptyString => EmptyString
  | String c rest => String c (pop_back rest)
  end.

Definition back_is (c : ascii) (s : string) : bool :=
  match back s with Some d => Ascii.eqb d c | None => false end.

(** [std::to_string(int)]: decimal digits, a minus sign when negative. *)
Definition to_string (n : Z) : string := NilZero.string_of_int (Z.to_int n).

(** ** cJSON values

    The parsed message, as the cJSON library hands it over.  A [cJSON*]
    that may be null is an [option cJSON].  Of a number only [valueint] is
    read by the server, so that is what [cJSON_Number] carries. *)
#[local] Unset Elimination Schemes.
Inductive cJSON : Type :=
| cJSON_False
| cJSON_True
| cJSON_NULL
| cJSON_Number (valueint : Z)
| cJSON_String (valuestring : string)
| cJSON_Array (items : list cJSON)
| cJSON_Object (children : list (string * cJSON))
| cJSON_Raw (raw : string).
#[local] Set Elimination Schemes.

Definition cJSON_IsBool (item : option cJSON) : bool :=
  match item with Some cJSON_False | Some cJSON_True => true | _ => false end.

Definition cJSON_IsNumber (item : option cJSON) : bool :=
  match item with Some (cJSON_Number _) => true | _ => false end.

Definition cJSON_IsString (item : option cJSON) : bool :=
  match item with Some (cJSON_String _) => true | _ => false end.

Definition cJSON_IsObject (item : option cJSON) : bool :=
  match item with Some (cJSON_Object _) => true | _ => false end.

(** [item->valueint]: the parser stores 1 for [true], 0 for [false] and
    for every item that is not a number. *)
Definition valueint (item : option cJSON) : Z :=
  match item with
  | Some cJSON_True => 1
  | Some (cJSON_Number n) => n
  | _ => 0
  end.

(** [item->valuestring], read only after [cJSON_IsString]. *)
Definition valuestring (item : option cJSON) : string :=
  match item with
  | Some (cJSON_String s) => s
  | Some (cJSON_Raw s) => s
  | _ => EmptyString
  end.

(** [tolower] on the ASCII letters, as cJSON's name comparison uses it. *)
Definition tolower (c : ascii) : ascii :=
  let n := nat_of_ascii c in
  if (Nat.leb 65 n && Nat.leb n 90)%bool then ascii_of_nat (n + 32) else c.

Fixpoint case_insensitive_eqb (s1 s2 : string) : bool :=
  match s1, s2 with
  | EmptyString, EmptyString => true
  | String c1 r1, String c2 r2 =>
      (Ascii.eqb (tolower c1) (tolower c2) && case_insensitive_eqb r1 r2)%bool
  | _, _ => false
  end.

(** [cJSON_GetObjectItem]: the first child whose name equals [name] up to
    the case of ASCII letters; null when there is none, when [object] is
    null, and when [object] has no named children. *)
Definition cJSON_GetObjectItem (object : option cJSON) (name : string)
  : option cJSON :=
  match object with
  | Some (cJSON_Object children) =>
      match find (fun child => case_insensitive_eqb name (fst child)) children with
      | Some child => Some (snd child)
      | None => None
      end
  | _ => None
  end.

(** ** Exceptions

    A computation that may throw a [std::exception]; [what] is its text. *)
Inductive result (A : Type) : Type :=
| Ok (a : A)
| Throw (what : string).
Arguments Ok {A} a.
Arguments Throw {A} what.

Definition bind {A B : Type} (r : result A) (k : A -> result B) : result B :=
  match r with Ok a => k a | Throw what => Throw what end.

Notation "x <- r ;; k" := (bind r (fun x => k))
  (at level 61, r at next level, right associativity).

(** ** Properties and tools ([mcp_server.h]) *)

Inductive PropertyType : Set :=
| kPropertyTypeBoolean
| kPropertyTypeInteger
| kPropertyTypeString.

(** The value a property holds: [bool], [int] or [std::string]. *)
Inductive PropertyValue : Type :=
| value_bool (b : bool)
| value_int (i : Z)
| value_string (s : string).

Definition value_type (v : PropertyValue) : PropertyType :=
  match v with
  | value_bool _ => kPropertyTypeBoolean
  | value_int _ => kPropertyTypeInteger
  | value_string _ => kPropertyTypeString
  end.

Module Property.
(** Modelled from the spec: the [Property] class is declared in
    [mcp_server.h], which is not among the sources.  The specification's
    data model gives it a name, a type, an optional default, an optional
    numeric range and an optional bound value. *)
Record t : Type := make {
  name : string;
  type : PropertyType;
  default : option PropertyValue;
  range : option (Z * Z);
  bound_value : option PropertyValue
}.

Definition has_default_value (p : t) : bool :=
  match default p with Some _ => true | None => false end.

(** The value a handler reads: the bound one, else the default. *)
Definition value (p : t) : option PropertyValue :=
  match bound_value p with Some v => Some v | None => default p end.

Definition with_value (v : PropertyValue) (p : t) : t :=
  make (name p) (type p) (default p) (range p) (Some v).
End Property.

Definition PropertyList : Type := list Property.t.

(** The result of a handler: [bool], [int], [std::string] or a JSON
    object. *)
Inductive ReturnValue : Type :=
| return_bool (b : bool)
| return_int (i : Z)
| return_string (s : string)
| return_json (j : cJSON).

Module McpTool.
(** Modelled from the spec: the [McpTool] class is declared in
    [mcp_server.h], which is not among the sources.  The specification's
    data model gives it a name, a description, a schema, a handler and the
    user-only flag; [callback] may throw. *)
Record t : Type := make {
  name : string;
  description : string;
  properties : PropertyList;
  callback : PropertyList -> result ReturnValue;
  user_only : bool
}.

Definition set_user_only (b : bool) (tool : t) : t :=
  make (name tool) (description tool) (properties tool) (callback tool) b.
End McpTool.

(** ** What the server does to the outside *)
Inductive Effect : Type :=
| SendMcpMessage (payload : string)
    (** [Application::SendMcpMessage(payload)] *)
| Schedule (id : Z) (tool_iter : nat) (arguments : PropertyList)
    (** [Application::Schedule] of the closure that calls the tool at
        position [tool_iter] of the registry with the bound [arguments] *)
| SetExplainUrl (url token : string).
    (** [Camera::SetExplainUrl(url, token)] *)

Local Open Scope string_scope.
Local Open Scope list_scope.
Local Open Scope Z_scope.

(** [==] on [std::string]. *)
Infix "==" := String.eqb (at level 70, no associativity).

Definition type_eqb (a b : PropertyType) : bool :=
  match a, b with
  | kPropertyTypeBoolean, kPropertyTypeBoolean => true
  | kPropertyTypeInteger, kPropertyTypeInteger => true
  | kPropertyTypeString, kPropertyTypeString => true
  | _, _ => false
  end.

Definition is_null {A : Type} (pointer : option A) : bool :=
  match pointer with None => true | Some _ => false end.

(** [std::vector::empty]. *)
Definition vector_empty {A : Type} (v : list A) : bool :=
  match v with [] => true | _ :: _ => false end.

(** [std::find_if]: the position and the element of the first match, or
    [None] for [end()]. *)
Fixpoint find_if {A : Type} (pred : A -> bool) (l : list A) : option (nat * A) :=
  match l with
  | [] => None
  | x :: rest =>
      if pred x then Some (O, x)
      else match find_if pred rest with
           | Some (i, y) => Some (S i, y)
           | None => None
           end
  end.

Section Server.

(** [McpTool::to_json] is declared in [mcp_server.h], which is not among
    the sources: the text a tool serializes to is a parameter. *)
Variable to_json : McpTool.t -> string.

(** The text of the exception [Property::set_value] raises for an integer
    outside the declared range; not given by the specification. *)
Variable range_error : Property.t -> Z -> string.

(** [BOARD_NAME], [esp_app_get_description()->version], and whether
    [Board::GetCamera()] returns a camera. *)
Variable BOARD_NAME : string.
Variable app_version : string.
Variable has_camera : bool.

(** Modelled from the spec: [Property::set_value] is defined in
    [mcp_server.h], which is not among the sources.  A value outside a
    declared numeric range raises; otherwise the value is bound.  The
    binder below calls it only with a value of the declared type. *)
Definition set_value (v : PropertyValue) (p : Property.t) : result Property.t :=
  match v, Property.range p with
  | value_int i, Some (lo, hi) =>
      if (i <? lo) || (hi <? i) then Throw (range_error p i)
      else Ok (Property.with_value v p)
  | _, _ => Ok (Property.with_value v p)
  end.

(** *** Registry *)

Definition has_tool (tool_name : string) (tools_ : list McpTool.t) : bool :=
  existsb (fun t => McpTool.name t == tool_name) tools_.

(** [McpServer::AddTool] on a tool pointer; the registry [tools_] is threaded. *)
Definition AddTool (tool : McpTool.t) (tools_ : list McpTool.t) : list McpTool.t :=
  if has_tool (McpTool.name tool) tools_ then tools_
  else tools_ ++ [tool].

Definition AddUserOnlyTool (tool : McpTool.t) (tools_ : list McpTool.t)
  : list McpTool.t :=
  AddTool (McpTool.set_user_only true tool) tools_.

(** [McpServer::AddCommonTools]: the tools registered so far are set
    aside, the common batch (which depends on the board) goes through
    [AddTool] into an empty registry, and the tools set aside are inserted
    after it as they are. *)
Definition AddCommonTools (common : list McpTool.t) (tools_ : list McpTool.t)
  : list McpTool.t :=
  let original_tools := tools_ in
  fold_left (fun registry tool => AddTool tool registry) common []
  ++ original_tools.

(** *** Replies *)

Definition ReplyResult (id : Z) (result : string) : list Effect :=
  [SendMcpMessage
     ("{" +++ quoted "jsonrpc" +++ ":" +++ quoted "2.0" +++ "," +++ quoted "id" +++ ":"
      +++ to_string id +++ "," +++ quoted "result" +++ ":" +++ result +++ "}")].

Definition ReplyError (id : Z) (message : string) : list Effect :=
  [SendMcpMessage
     ("{" +++ quoted "jsonrpc" +++ ":" +++ quoted "2.0" +++ "," +++ quoted "id" +++ ":"
      +++ to_string id +++ "," +++ quoted "error" +++ ":{" +++ quoted "message" +++ ":"
      +++ dquote +++ message +++ dquote +++ "}}")].

(** *** tools/list *)

Definition max_payload_size : Z := 8000.

(** The [while] loop of [GetToolsList] over the rest [it] of the registry;
    the result is [json] and [next_cursor] when the loop is left.  The sum
    of lengths is a [size_t] in the source; it cannot wrap with texts that
    fit the device's memory. *)
Fixpoint tools_loop (cursor : string) (list_user_only_tools : bool)
    (it : list McpTool.t) (found_cursor : bool) (json : string)
  : string * string :=
  match it with
  | [] => (json, EmptyString)
  | tool :: rest =>
      if negb found_cursor && negb (McpTool.name tool == cursor) then
        tools_loop cursor list_user_only_tools rest false json
      else if negb list_user_only_tools && McpTool.user_only tool then
        tools_loop cursor list_user_only_tools rest true json
      else
        let tool_json := to_json tool +++ "," in
        if len json + len tool_json + 30 >? max_payload_size then
          (json, McpTool.name tool)
        else
          tools_loop cursor list_user_only_tools rest true (json +++ tool_json)
  end.

Definition GetToolsList (tools_ : list McpTool.t)
    (id : Z) (cursor : string) (list_user_only_tools : bool) : list Effect :=
  let json := "{" +++ quoted "tools" +++ ":[" in
  let found_cursor := empty cursor in
  let (json, next_cursor) :=
    tools_loop cursor list_user_only_tools tools_ found_cursor json in
  let json := if back_is "," json then pop_back json else json in
  if back_is "[" json && negb (vector_empty tools_) then
    ReplyError id ("Failed to add tool " +++ next_cursor
                   +++ " because of payload size limit")
  else
    let json :=
      if empty next_cursor then json +++ "]}"
      else json +++ "]," +++ quoted "nextCursor" +++ ":" +++ quoted next_cursor +++ "}" in
    ReplyResult id json.

(** *** tools/call *)

(** How the binding loop is left: through its end, or through the
    [return] after the reply for a missing argument. *)
Inductive Binding : Type :=
| Bound (arguments : PropertyList)
| MissingArgument (argument_name : string).

(** The first half of the loop body: bind [argument] from the caller's
    object when an entry of the declared wire type is there.  The [bool]
    is [found]. *)
Definition bind_argument (tool_arguments : option cJSON) (argument : Property.t)
  : result (Property.t * bool) :=
  if cJSON_IsObject tool_arguments then
    let value := cJSON_GetObjectItem tool_arguments (Property.name argument) in
    if type_eqb (Property.type argument) kPropertyTypeBoolean && cJSON_IsBool value then
      a <- set_value (value_bool (valueint value =? 1)) argument ;; Ok (a, true)
    else if type_eqb (Property.type argument) kPropertyTypeInteger && cJSON_IsNumber value then
      a <- set_value (value_int (valueint value)) argument ;; Ok (a, true)
    else if type_eqb (Property.type argument) kPropertyTypeString && cJSON_IsString value then
      a <- set_value (value_string (valuestring value)) argument ;; Ok (a, true)
    else Ok (argument, false)
  else Ok (argument, false).

(** The [for] loop inside the [try] block. *)
Fixpoint bind_arguments (tool_arguments : option cJSON) (arguments : PropertyList)
  : result Binding :=
  match arguments with
  | [] => Ok (Bound [])
  | argument :: rest =>
      r <- bind_argument tool_arguments argument ;;
      let (argument', found) := r in
      if negb (Property.has_default_value argument') && negb found then
        Ok (MissingArgument (Property.name argument'))
      else
        b <- bind_arguments tool_arguments rest ;;
        match b with
        | Bound rest' => Ok (Bound (argument' :: rest'))
        | MissingArgument n => Ok (MissingArgument n)
        end
  end.

Definition DoToolCall (tools_ : list McpTool.t)
    (id : Z) (tool_name : string) (tool_arguments : option cJSON) : list Effect :=
  match find_if (fun tool => McpTool.name tool == tool_name) tools_ with
  | None => ReplyError id ("Unknown tool: " +++ tool_name)
  | Some (tool_iter, tool) =>
      match bind_arguments tool_arguments (McpTool.properties tool) with
      | Throw what => ReplyError id what
      | Ok (MissingArgument n) => ReplyError id ("Missing valid argument: " +++ n)
      | Ok (Bound arguments) => [Schedule id tool_iter arguments]
      end
  end.

(** *** Dispatch *)

Definition ParseCapabilities (capabilities : option cJSON) : list Effect :=
  let vision := cJSON_GetObjectItem capabilities "vision" in
  if cJSON_IsObject vision then
    let url := cJSON_GetObjectItem vision "url" in
    let token := cJSON_GetObjectItem vision "token" in
    if cJSON_IsString url then
      if has_camera then
        let url_str := valuestring url in
        let token_str := if cJSON_IsString token then valuestring token else EmptyString in
        [SetExplainUrl url_str token_str]
      else []
    else []
  else [].

(** [McpServer::ParseMessage] on a parsed message. *)
Definition ParseMessage (tools_ : list McpTool.t) (json : cJSON) : list Effect :=
  let version := cJSON_GetObjectItem (Some json) "jsonrpc" in
  if is_null version || negb (cJSON_IsString version)
     || negb (valuestring version == "2.0") then []
  else
  let method := cJSON_GetObjectItem (Some json) "method" in
  if is_null method || negb (cJSON_IsString method) then []
  else
  let method_str := valuestring method in
  if String.prefix "notifications" method_str then []
  else
  let params := cJSON_GetObjectItem (Some json) "params" in
  if negb (is_null params) && negb (cJSON_IsObject params) then []
  else
  let id := cJSON_GetObjectItem (Some json) "id" in
  if is_null id || negb (cJSON_IsNumber id) then []
  else
  let id_int := valueint id in
  if method_str == "initialize" then
    (if cJSON_IsObject params then
       let capabilities := cJSON_GetObjectItem params "capabilities" in
       if cJSON_IsObject capabilities then ParseCapabilities capabilities else []
     else [])
    ++ ReplyResult id_int
         ("{" +++ quoted "protocolVersion" +++ ":" +++ quoted "2024-11-05" +++ ","
          +++ quoted "capabilities" +++ ":{" +++ quoted "tools" +++ ":{}},"
          +++ quoted "serverInfo" +++ ":{" +++ quoted "name" +++ ":" +++ quoted BOARD_NAME
          +++ "," +++ quoted "version" +++ ":" +++ dquote +++ app_version +++ dquote +++ "}}")
  else if method_str == "tools/list" then
    let cursor := cJSON_GetObjectItem params "cursor" in
    let with_user_tools := cJSON_GetObjectItem params "withUserTools" in
    let cursor_str :=
      if negb (is_null params) && cJSON_IsString cursor then valuestring cursor
      else EmptyString in
    let list_user_only_tools :=
      if negb (is_null params) && cJSON_IsBool with_user_tools
      then valueint with_user_tools =? 1
      else false in
    GetToolsList tools_ id_int cursor_str list_user_only_tools
  else if method_str == "tools/call" then
    if negb (cJSON_IsObject params) then ReplyError id_int "Missing params"
    else
    let tool_name := cJSON_GetObjectItem params "name" in
    if negb (cJSON_IsString tool_name) then ReplyError id_int "Missing name"
    else
    let tool_arguments := cJSON_GetObjectItem params "arguments" in
    if negb (is_null tool_arguments) && negb (cJSON_IsObject tool_arguments) then
      ReplyError id_int "Invalid arguments"
    else DoToolCall tools_ id_int (valuestring tool_name) tool_arguments
  else
    ReplyError id_int ("Method not implemented: " +++ method_str).

(** [McpServer::ParseMessage] on the text of a message; [parsed] is what
    [cJSON_Parse] returns for the text, null when it is not JSON. *)
Definition ParseMessage_text (tools_ : list McpTool.t) (parsed : option cJSON)
  : list Effect :=
  match parsed with
  | None => []
  | Some json => ParseMessage tools_ json
  end.

(** *** The reply of tools/list, read back

    What a client reads in the reply: the tools of the page and the
    [nextCursor] field, or the failure.  [list_reply] computes it from the
    registry without building the text; [GetToolsList_render] below shows
    that [GetToolsList] sends exactly its rendering. *)

Inductive ListReply : Type :=
| ListedTools (listed : list McpTool.t) (nextCursor : string)
| ListFailed (tool_name : string).

(** The result object of the wire protocol: the serialized tools between
    commas, and the [nextCursor] field when the cursor is not empty. *)
Definition tools_json (listed : list McpTool.t) (nextCursor : string) : string :=
  "{" +++ quoted "tools" +++ ":[" +++ String.concat "," (map to_json listed)
  +++ (if empty nextCursor then "]}"
       else "]," +++ quoted "nextCursor" +++ ":" +++ quoted nextCursor +++ "}").

Definition render (id : Z) (r : ListReply) : list Effect :=
  match r with
  | ListedTools listed nextCursor => ReplyResult id (tools_json listed nextCursor)
  | ListFailed tool_name =>
      ReplyError id ("Failed to add tool " +++ tool_name
                     +++ " because of payload size limit")
  end.

(** A tool passes the user-only filter. *)
Definition visible (list_user_only_tools : bool) (tool : McpTool.t) : bool :=
  list_user_only_tools || negb (McpTool.user_only tool).

(** The registry from the first tool named [cursor] on. *)
Fixpoint seek (cursor : string) (tools : list McpTool.t) : list McpTool.t :=
  match tools with
  | [] => []
  | tool :: rest => if McpTool.name tool == cursor then tools else seek cursor rest
  end.

Definition start (cursor : string) (tools : list McpTool.t) : list McpTool.t :=
  if empty cursor then tools else seek cursor tools.

(** The longest run of candidates whose serializations, each followed by a
    comma, fit after [size] units with the allowance of 30; and the name
    of the candidate that did not fit, if one did not. *)
Fixpoint take_fit (size : Z) (candidates : list McpTool.t)
  : list McpTool.t * string :=
  match candidates with
  | [] => ([], EmptyString)
  | tool :: rest =>
      let tool_size := len (to_json tool +++ ",") in
      if size + tool_size + 30 >? max_payload_size then ([], McpTool.name tool)
      else let (listed, next) := take_fit (size + tool_size) rest in
           (tool :: listed, next)
  end.

(** The text the loop has appended after the tools [listed]. *)
Fixpoint accumulated (listed : list McpTool.t) : string :=
  match listed with
  | [] => EmptyString
  | tool :: rest => (to_json tool +++ ",") +++ accumulated rest
  end.

(** The length of [json] in the loop once the tools [listed] are in. *)
Definition page_size (listed : list McpTool.t) : Z :=
  len (("{" +++ quoted "tools" +++ ":[") +++ accumulated listed).

(** The serialization of [tool] fits a page on its own. *)
Definition fits_alone (tool : McpTool.t) : bool :=
  page_size [tool] + 30 <=? max_payload_size.

Definition page (tools : list McpTool.t) (cursor : string)
    (list_user_only_tools : bool) : list McpTool.t * string :=
  take_fit (page_size [])
           (filter (visible list_user_only_tools) (start cursor tools)).

Definition list_reply (tools : list McpTool.t) (cursor : string)
    (list_user_only_tools : bool) : ListReply :=
  match page tools cursor list_user_only_tools, tools with
  | ([], next), _ :: _ => ListFailed next
  | (listed, next), _ => ListedTools listed next
  end.

(** The serialization of a tool is the text of a JSON object: it ends with
    a closing brace. *)
Definition closes_object (tool : McpTool.t) : Prop :=
  back (to_json tool) = Some "}"%char.

(** A client that follows [nextCursor]: [enumerates tools id flag cursor
    pages] when the calls of tools/list that start with [cursor] and go on
    with each [nextCursor] received are all answered with a result, the
    last one without [nextCursor], and [pages] are the tool lists of the
    replies in order. *)
Inductive enumerates (tools : list McpTool.t) (id : Z) (list_user_only_tools : bool)
  : string -> list (list McpTool.t) -> Prop :=
| last_page (cursor : string) (listed : list McpTool.t) :
    GetToolsList tools id cursor list_user_only_tools
      = ReplyResult id (tools_json listed EmptyString) ->
    enumerates tools id list_user_only_tools cursor [listed]
| next_page (cursor next : string) (listed : list McpTool.t)
            (pages : list (list McpTool.t)) :
    empty next = false ->
    GetToolsList tools id cursor list_user_only_tools
      = ReplyResult id (tools_json listed next) ->
    enumerates tools id list_user_only_tools next pages ->
    enumerates tools id list_user_only_tools cursor (listed :: pages).

(** *** The argument binder, read back *)

Definition wire_type_matches (type : PropertyType) (value : option cJSON) : bool :=
  match type with
  | kPropertyTypeBoolean => cJSON_IsBool value
  | kPropertyTypeInteger => cJSON_IsNumber value
  | kPropertyTypeString => cJSON_IsString value
  end.

(** The caller's object holds, under the name of [p], an entry of the wire
    type [p] declares. *)
Definition supplied (tool_arguments : option cJSON) (p : Property.t) : bool :=
  cJSON_IsObject tool_arguments
  && wire_type_matches (Property.type p)
       (cJSON_GetObjectItem tool_arguments (Property.name p)).

(** The envelope checks of the dispatcher, as the specification lists
    them. *)
Definition malformed_envelope (json : cJSON) : Prop :=
  let jsonrpc := cJSON_GetObjectItem (Some json) "jsonrpc" in
  let method := cJSON_GetObjectItem (Some json) "method" in
  let params := cJSON_GetObjectItem (Some json) "params" in
  let id := cJSON_GetObjectItem (Some json) "id" in
  (jsonrpc = None \/ cJSON_IsString jsonrpc = false \/ valuestring jsonrpc <> "2.0")
  \/ (method = None \/ cJSON_IsString method = false)
  \/ (params <> None /\ cJSON_IsObject params = false)
  \/ (id = None \/ cJSON_IsNumber id = false).

(** ** Properties of the server *)

(** *** Text *)

Lemma append_assoc (a b c : string) : (a +++ b) +++ c = a +++ (b +++ c).
Proof. induction a as [|x a IH]; cbn; [reflexivity | now rewrite IH]. Qed.

Lemma append_nil_r (a : string) : a +++ EmptyString = a.
Proof. induction a as [|x a IH]; cbn; [reflexivity | now rewrite IH]. Qed.

Lemma len_append (a b : string) : len (a +++ b) = len a + len b.
Proof.
  unfold len. induction a as [|x a IH]; cbn [String.append String.length].
  - reflexivity.
  - rewrite !Nat2Z.inj_succ. lia.
Qed.

Lemma append_inv_head (a b c : string) : a +++ b = a +++ c -> b = c.
Proof. induction a as [|x a IH]; cbn; intros E; [exact E | injection E; auto]. Qed.

Lemma back_append (a b : string) :
  empty b = false -> back (a +++ b) = back b.
Proof.
  intros Hb. induction a as [|x a IH]; cbn [String.append]; [reflexivity|].
  cbn [back]. destruct (a +++ b) eqn:E.
  - destruct a, b; cbn in *; discriminate.
  - exact IH.
Qed.

Lemma pop_back_snoc (a : string) (c : ascii) :
  pop_back (a +++ String c EmptyString) = a.
Proof.
  induction a as [|x a IH]; cbn [String.append pop_back]; [reflexivity|].
  destruct (a +++ String c EmptyString) eqn:E.
  - destruct a; cbn in E; discriminate.
  - now rewrite IH.
Qed.

Lemma empty_false_iff (s : string) : empty s = false <-> s <> EmptyString.
Proof. destruct s; cbn; split; congruence. Qed.

Lemma back_nonempty (s : string) (c : ascii) : back s = Some c -> empty s = false.
Proof. destruct s; cbn; [discriminate | reflexivity]. Qed.

(** A result reply and an error reply to the same request differ. *)
Lemma ReplyResult_neq_ReplyError (id : Z) (result message : string) :
  ReplyResult id result <> ReplyError id message.
Proof.
  unfold ReplyResult, ReplyError. intros E. injection E as E.
  repeat (apply append_inv_head in E).
  cbn in E. discriminate.
Qed.

(** *** The loop of tools/list *)

Lemma visible_filter (flag : bool) (tool : McpTool.t) :
  negb flag && McpTool.user_only tool = negb (visible flag tool).
Proof. unfold visible. destruct flag, (McpTool.user_only tool); reflexivity. Qed.

(** Until the cursor is found the loop only moves on. *)
Lemma tools_loop_seek (cursor : string) (flag : bool) (json : string) :
  forall it,
    tools_loop cursor flag it false json
    = tools_loop cursor flag (seek cursor it) true json.
Proof.
  induction it as [|tool rest IH]; [reflexivity|].
  cbn [tools_loop seek negb andb].
  destruct (McpTool.name tool == cursor) eqn:E; cbn [negb].
  - cbn [tools_loop negb andb]. reflexivity.
  - exact IH.
Qed.

(** Once it is found, the loop appends the visible tools that fit. *)
Lemma tools_loop_found (cursor : string) (flag : bool) :
  forall it json,
    tools_loop cursor flag it true json
    = let (listed, next) := take_fit (len json) (filter (visible flag) it) in
      (json +++ accumulated listed, next).
Proof.
  induction it as [|tool rest IH]; intros json.
  - cbn. now rewrite append_nil_r.
  - cbn [tools_loop negb andb filter].
    rewrite visible_filter. destruct (visible flag tool); cbn [negb].
    + cbn [take_fit].
      destruct (len json + len (to_json tool +++ ",") + 30 >? max_payload_size).
      * cbn. now rewrite append_nil_r.
      * rewrite IH, len_append.
        destruct (take_fit (len json + len (to_json tool +++ ","))
                           (filter (visible flag) rest)) as [listed next].
        cbn [accumulated]. now rewrite append_assoc.
    + apply IH.
Qed.

Lemma tools_loop_page (tools : list McpTool.t) (cursor : string) (flag : bool)
    (json : string) :
  tools_loop cursor flag tools (empty cursor) json
  = let (listed, next) :=
      take_fit (len json) (filter (visible flag) (start cursor tools)) in
    (json +++ accumulated listed, next).
Proof.
  unfold start. destruct (empty cursor).
  - apply tools_loop_found.
  - rewrite tools_loop_seek. apply tools_loop_found.
Qed.

(** What [take_fit] returns is a prefix of the candidates; it stops at the
    end, with no cursor, or at a candidate over the budget, with its
    name. *)
Lemma take_fit_prefix :
  forall candidates size listed next,
    take_fit size candidates = (listed, next) ->
    (candidates = listed /\ next = EmptyString)
    \/ (exists tool rest,
          candidates = listed ++ tool :: rest /\ next = McpTool.name tool).
Proof.
  induction candidates as [|tool rest IH]; intros size listed next; cbn [take_fit].
  - intros [= <- <-]. now left.
  - destruct (size + len (to_json tool +++ ",") + 30 >? max_payload_size).
    + intros [= <- <-]. right. now exists tool, rest.
    + destruct (take_fit (size + len (to_json tool +++ ",")) rest)
        as [listed' next'] eqn:E.
      intros [= <- <-].
      destruct (IH _ _ _ E) as [[-> ->] | (tool' & rest' & -> & ->)].
      * now left.
      * right. now exists tool', rest'.
Qed.

Lemma seek_suffix (cursor : string) :
  forall tools, exists before, tools = before ++ seek cursor tools.
Proof.
  induction tools as [|tool rest [before IH]]; cbn [seek].
  - now exists [].
  - destruct (McpTool.name tool == cursor).
    + now exists [].
    + exists (tool :: before). cbn. now f_equal.
Qed.

Lemma start_incl (cursor : string) (tools : list McpTool.t) :
  incl (start cursor tools) tools.
Proof.
  unfold start. destruct (empty cursor); [apply incl_refl|].
  destruct (seek_suffix cursor tools) as [before E].
  rewrite E at 2. apply incl_appr, incl_refl.
Qed.

Lemma page_incl (tools : list McpTool.t) (cursor : string) (flag : bool)
    (listed : list McpTool.t) (next : string) :
  page tools cursor flag = (listed, next) -> incl listed tools.
Proof.
  unfold page. intros E tool Hin.
  apply (start_incl cursor).
  apply (proj1 (filter_In (visible flag) tool (start cursor tools))).
  destruct (take_fit_prefix _ _ E) as [[-> _] | (tool' & rest & -> & _)].
  - exact Hin.
  - apply in_or_app. now left.
Qed.

(** *** The text of a page *)

Lemma accumulated_joined (listed : list McpTool.t) :
  listed <> [] ->
  accumulated listed = String.concat "," (map to_json listed) +++ ",".
Proof.
  induction listed as [|tool rest IH]; [congruence|]. intros _.
  destruct rest as [|tool' rest'].
  - cbn. now rewrite append_nil_r.
  - cbn [accumulated] in *. rewrite IH by discriminate.
    cbn [map String.concat]. now rewrite !append_assoc.
Qed.

Lemma back_joined (listed : list McpTool.t) :
  listed <> [] -> Forall closes_object listed ->
  back (String.concat "," (map to_json listed)) = Some "}"%char.
Proof.
  induction listed as [|tool rest IH]; [congruence|]. intros _ H.
  inversion H as [|? ? Htool Hrest]; subst.
  destruct rest as [|tool' rest'].
  - exact Htool.
  - cbn [map String.concat]. specialize (IH ltac:(discriminate) Hrest).
    cbn [map] in IH.
    rewrite back_append by reflexivity.
    rewrite (back_append ","); [exact IH | exact (back_nonempty _ IH)].
Qed.

(** [GetToolsList] sends the rendering of [list_reply]. *)
Lemma GetToolsList_render (tools : list McpTool.t) (id : Z) (cursor : string)
    (flag : bool) :
  Forall closes_object tools ->
  GetToolsList tools id cursor flag = render id (list_reply tools cursor flag).
Proof.
  intros Hjson. unfold GetToolsList, list_reply.
  rewrite tools_loop_page.
  change (len ("{" +++ quoted "tools" +++ ":[")) with (page_size []).
  fold (page tools cursor flag).
  destruct (page tools cursor flag) as [listed next] eqn:Epage.
  destruct listed as [|tool listed'].
  - cbn [accumulated]. rewrite append_nil_r.
    destruct tools as [|first others].
    + unfold page, start in Epage.
      assert (next = EmptyString) as ->
        by (destruct (empty cursor); cbn in Epage; congruence).
      reflexivity.
    + reflexivity.
  - assert (Hlisted : Forall closes_object (tool :: listed')).
    { apply Forall_forall. intros x Hx.
      apply (proj1 (Forall_forall closes_object tools) Hjson).
      pose proof (@page_incl tools cursor flag _ _ Epage) as Hincl.
      exact (Hincl x Hx). }
    set (joined := String.concat "," (map to_json (tool :: listed'))).
    assert (Hback : back joined = Some "}"%char)
      by (apply back_joined; [discriminate | exact Hlisted]).
    rewrite accumulated_joined by discriminate. fold joined.
    rewrite <- append_assoc.
    set (body := ("{" +++ quoted "tools" +++ ":[") +++ joined).
    assert (Hbody : back body = Some "}"%char).
    { unfold body. rewrite back_append; [exact Hback | exact (back_nonempty _ Hback)]. }
    assert (Hcomma : back_is "," (body +++ ",") = true).
    { unfold back_is. now rewrite back_append. }
    rewrite Hcomma. change "," with (String ","%char EmptyString).
    rewrite pop_back_snoc.
    assert (Hopen : back_is "[" body = false) by (unfold back_is; now rewrite Hbody).
    rewrite Hopen. cbn [andb].
    destruct tools; cbn [render]; unfold tools_json; fold joined; unfold body;
      f_equal; destruct (empty next); rewrite !append_assoc; reflexivity.
Qed.

(** *** Sizes *)

Lemma len_nonneg (s : string) : 0 <= len s.
Proof. unfold len. lia. Qed.

Lemma page_size_nil : page_size [] = 10.
Proof. reflexivity. Qed.

Lemma page_size_cons (tool : McpTool.t) (listed : list McpTool.t) :
  page_size (tool :: listed) = len (to_json tool +++ ",") + page_size listed.
Proof. unfold page_size. cbn [accumulated]. rewrite !len_append. lia. Qed.

Lemma page_size_lower (listed : list McpTool.t) : 10 <= page_size listed.
Proof.
  induction listed as [|tool rest IH].
  - rewrite page_size_nil. lia.
  - rewrite page_size_cons. pose proof (len_nonneg (to_json tool +++ ",")). lia.
Qed.

(** *** Cursors *)

Lemma has_tool_false (cursor : string) (tools : list McpTool.t) :
  has_tool cursor tools = false <->
  forall tool, In tool tools -> McpTool.name tool <> cursor.
Proof.
  unfold has_tool. induction tools as [|tool rest IH]; cbn [existsb].
  - split; [intros _ ? [] | reflexivity].
  - rewrite orb_false_iff, IH, String.eqb_neq. split.
    + intros [Hhead Hrest] x [<- | Hx]; auto.
    + intros H. split; [apply H; now left | intros x Hx; apply H; now right].
Qed.

Lemma seek_absent (cursor : string) (tools : list McpTool.t) :
  has_tool cursor tools = false -> seek cursor tools = [].
Proof.
  unfold has_tool. induction tools as [|tool rest IH]; cbn [existsb seek].
  - reflexivity.
  - intros H. apply orb_false_iff in H as [-> Hrest]. auto.
Qed.

Lemma seek_at (before after : list McpTool.t) (tool : McpTool.t) :
  ~ In (McpTool.name tool) (map McpTool.name before) ->
  seek (McpTool.name tool) (before ++ tool :: after) = tool :: after.
Proof.
  induction before as [|other before IH]; cbn [app seek map]; intros Hnot.
  - now rewrite String.eqb_refl.
  - destruct (McpTool.name other == McpTool.name tool) eqn:E.
    + apply String.eqb_eq in E. exfalso. apply Hnot. now left.
    + apply IH. intros Hin. apply Hnot. now right.
Qed.

Lemma names_before (before after : list McpTool.t) (tool : McpTool.t) :
  NoDup (map McpTool.name (before ++ tool :: after)) ->
  ~ In (McpTool.name tool) (map McpTool.name before).
Proof.
  rewrite map_app. cbn [map]. intros H Hin.
  apply NoDup_remove_2 in H. apply H, in_or_app. now left.
Qed.

Lemma filter_split {A : Type} (f : A -> bool) :
  forall (l a : list A) (x : A) (b : list A),
    filter f l = a ++ x :: b ->
    exists l1 l2, l = l1 ++ x :: l2 /\ filter f l1 = a /\ filter f l2 = b
                  /\ f x = true.
Proof.
  induction l as [|y l IH]; intros a x b; cbn [filter].
  - destruct a; discriminate.
  - destruct (f y) eqn:Fy.
    + destruct a as [|a0 a]; cbn [app]; intros [= -> E].
      * exists [], l. cbn. auto.
      * destruct (IH _ _ _ E) as (l1 & l2 & -> & <- & <- & Fx).
        exists (a0 :: l1), l2. cbn [app filter]. rewrite Fy. auto.
    + intros E. destruct (IH _ _ _ E) as (l1 & l2 & -> & <- & <- & Fx).
      exists (y :: l1), l2. cbn [app filter]. rewrite Fy. auto.
Qed.

(** *** tools/list on an empty registry, and with a cursor that names no
    tool *)

(** C10.  On a registry without tools, tools/list replies, for every cursor
    and flag, with the result whose tool list is empty and which has no
    nextCursor field; and whenever tools/list replies with an error, the
    registry holds at least one tool. *)
Theorem empty_registry_lists_nothing :
  (forall id cursor flag,
      GetToolsList [] id cursor flag
      = ReplyResult id ("{" +++ quoted "tools" +++ ":[]}"))
  /\ (forall tools id cursor flag message,
        GetToolsList tools id cursor flag = ReplyError id message ->
        tools <> []).
Proof.
  assert (Hempty : forall id cursor flag,
             GetToolsList [] id cursor flag
             = ReplyResult id ("{" +++ quoted "tools" +++ ":[]}"))
    by reflexivity.
  split; [exact Hempty|].
  intros tools id cursor flag message E ->.
  rewrite Hempty in E. exact (ReplyResult_neq_ReplyError E).
Qed.

(** C3, amended.  For a cursor that is not empty and is the name of no
    tool, tools/list sends one reply without tool list and without
    nextCursor: the result with the empty list when the registry is empty,
    and otherwise the error reply of the branch taken when no tool was
    added. *)
Theorem unmatched_cursor_reply (tools : list McpTool.t) (id : Z)
    (cursor : string) (flag : bool) :
  empty cursor = false ->
  has_tool cursor tools = false ->
  GetToolsList tools id cursor flag
  = match tools with
    | [] => ReplyResult id ("{" +++ quoted "tools" +++ ":[]}")
    | _ :: _ =>
        ReplyError id "Failed to add tool  because of payload size limit"
    end.
Proof.
  intros Hcursor Habsent. unfold GetToolsList.
  rewrite tools_loop_page. unfold start.
  rewrite Hcursor, (seek_absent _ _ Habsent).
  destruct tools; reflexivity.
Qed.

(** *** Resuming at a cursor *)

Lemma start_at (before after : list McpTool.t) (tool : McpTool.t) :
  NoDup (map McpTool.name (before ++ tool :: after)) ->
  empty (McpTool.name tool) = false ->
  start (McpTool.name tool) (before ++ tool :: after) = tool :: after.
Proof.
  intros Hnames Hname. unfold start. rewrite Hname.
  apply seek_at. exact (names_before _ _ _ Hnames).
Qed.

(** A candidate that fits on its own is taken when it comes first. *)
Lemma take_fit_first (tool : McpTool.t) (rest : list McpTool.t) :
  fits_alone tool = true ->
  exists others next, take_fit (page_size []) (tool :: rest) = (tool :: others, next).
Proof.
  unfold fits_alone. rewrite page_size_cons. intros Hfits.
  apply Z.leb_le in Hfits. cbn [take_fit].
  destruct (page_size [] + len (to_json tool +++ ",") + 30 >? max_payload_size) eqn:E.
  - apply Z.gtb_lt in E. lia.
  - destruct (take_fit (page_size [] + len (to_json tool +++ ",")) rest)
      as [others next].
    now exists others, next.
Qed.

Lemma list_reply_listed (tools : list McpTool.t) (cursor : string) (flag : bool)
    (listed : list McpTool.t) (next : string) :
  list_reply tools cursor flag = ListedTools listed next ->
  page tools cursor flag = (listed, next).
Proof.
  unfold list_reply. destruct (page tools cursor flag) as [l n].
  destruct l, tools; congruence.
Qed.

(** C2, amended.  When the cursor is the (non-empty) name of the tool at
    position [n] of a registry with pairwise distinct names, tools/list
    resumes at that tool: its reply lists a prefix of the non-filtered
    tools from position [n] on, so no tool before position [n]; and the
    list begins with the tool at position [n] itself whenever that tool
    passes the user-only filter and its serialization fits the budget. *)
Theorem cursor_resumes_at_named_tool (tools : list McpTool.t) (n : nat)
    (tool : McpTool.t) (id : Z) (flag : bool) :
  Forall closes_object tools ->
  NoDup (map McpTool.name tools) ->
  nth_error tools n = Some tool ->
  empty (McpTool.name tool) = false ->
  GetToolsList tools id (McpTool.name tool) flag
  = render id (list_reply tools (McpTool.name tool) flag)
  /\ (forall listed next,
        list_reply tools (McpTool.name tool) flag = ListedTools listed next ->
        exists rest, filter (visible flag) (skipn n tools) = listed ++ rest)
  /\ (visible flag tool = true -> fits_alone tool = true ->
      exists others next,
        list_reply tools (McpTool.name tool) flag = ListedTools (tool :: others) next).
Proof.
  intros Hjson Hnames Hnth Hname.
  destruct (nth_error_split tools n Hnth) as (before & after & -> & <-).
  assert (Hstart := start_at _ _ _ Hnames Hname).
  assert (Hskip : skipn (List.length before) (before ++ tool :: after) = tool :: after).
  { rewrite skipn_app, skipn_all, Nat.sub_diag. reflexivity. }
  split; [now apply GetToolsList_render | split].
  - intros listed next E. apply list_reply_listed in E.
    unfold page in E. rewrite Hstart in E. rewrite Hskip.
    destruct (take_fit_prefix _ _ E) as [[-> _] | (tool' & rest & -> & _)].
    + exists []. now rewrite app_nil_r.
    + now exists (tool' :: rest).
  - intros Hvisible Hfits. unfold list_reply, page. rewrite Hstart.
    cbn [filter]. rewrite Hvisible.
    destruct (take_fit_first tool (filter (visible flag) after) Hfits)
      as (others & next & ->).
    exists others, next. now destruct before.
Qed.

(** *** Pages *)

(** The scenario of three tools: the first two fit a page together, the
    third does not fit with them but fits on its own. *)
Lemma three_tools_two_pages (A B C : McpTool.t) (id : Z) (flag : bool) :
  Forall closes_object [A; B; C] ->
  Forall (fun tool => visible flag tool = true) [A; B; C] ->
  McpTool.name A <> McpTool.name C ->
  McpTool.name B <> McpTool.name C ->
  empty (McpTool.name C) = false ->
  page_size [A; B] + 30 <= max_payload_size ->
  page_size [A; B; C] + 30 > max_payload_size ->
  fits_alone C = true ->
  GetToolsList [A; B; C] id EmptyString flag
  = ReplyResult id (tools_json [A; B] (McpTool.name C))
  /\ GetToolsList [A; B; C] id (McpTool.name C) flag
     = ReplyResult id (tools_json [C] EmptyString).
Proof.
  intros Hjson Hvisible HAC HBC Hname HAB HABC HC.
  inversion Hvisible as [|? ? VA Hvisible']; subst.
  inversion Hvisible' as [|? ? VB Hvisible'']; subst.
  inversion Hvisible'' as [|? ? VC _]; subst.
  rewrite !GetToolsList_render by exact Hjson.
  repeat rewrite page_size_cons in HAB.
  repeat rewrite page_size_cons in HABC.
  pose proof (len_nonneg (to_json A +++ ",")).
  pose proof (len_nonneg (to_json B +++ ",")).
  split.
  - unfold list_reply, page, start. cbn [empty filter]. rewrite VA, VB, VC.
    cbn [take_fit].
    destruct (Z.gtb_spec (page_size [] + len (to_json A +++ ",") + 30)
                max_payload_size); [lia|].
    destruct (Z.gtb_spec (page_size [] + len (to_json A +++ ",")
                          + len (to_json B +++ ",") + 30)
                max_payload_size); [lia|].
    destruct (Z.gtb_spec (page_size [] + len (to_json A +++ ",")
                          + len (to_json B +++ ",") + len (to_json C +++ ",") + 30)
                max_payload_size); [|lia].
    reflexivity.
  - unfold list_reply, page, start. rewrite Hname. cbn [seek].
    apply String.eqb_neq in HAC, HBC. rewrite HAC, HBC, String.eqb_refl.
    cbn [filter]. rewrite VC.
    destruct (take_fit_first C [] HC) as (others & next & E).
    cbn [take_fit] in *.
    destruct (page_size [] + len (to_json C +++ ",") + 30 >? max_payload_size);
      [discriminate|].
    reflexivity.
Qed.

Lemma NoDup_names_filter (f : McpTool.t -> bool) (tools : list McpTool.t) :
  NoDup (map McpTool.name tools) -> NoDup (map McpTool.name (filter f tools)).
Proof.
  induction tools as [|tool rest IH]; cbn [map filter]; intros H.
  - constructor.
  - inversion H as [|? ? Hnot Hrest]; subst.
    destruct (f tool); cbn [map]; [constructor|]; auto.
    intros Hin. apply Hnot. apply in_map_iff in Hin as (x & Ex & Hx).
    apply filter_In in Hx as [Hx _]. apply in_map_iff. now exists x.
Qed.

Section Chaining.

Variable tools : list McpTool.t.
Variable id : Z.
Variable flag : bool.

Hypothesis tools_close : Forall closes_object tools.
Hypothesis names_distinct : NoDup (map McpTool.name tools).
Hypothesis visible_fit :
  forall tool, In tool tools -> visible flag tool = true ->
               empty (McpTool.name tool) = false /\ fits_alone tool = true.

(** From a cursor at which the registry resumes with the rest [after], the
    calls that follow [nextCursor] list the visible tools of [after], page
    after page.  The induction is on a bound [n] of their number; each page
    holds at least one tool. *)
Lemma enumerates_rest :
  forall (n : nat) (cursor : string) (before after : list McpTool.t),
    tools = before ++ after ->
    start cursor tools = after ->
    filter (visible flag) after <> [] ->
    (List.length (filter (visible flag) after) <= n)%nat ->
    exists pages,
      enumerates tools id flag cursor pages
      /\ List.concat pages = filter (visible flag) after.
Proof.
  induction n as [|n IH]; intros cursor before after Etools Estart Hrem Hlen.
  - destruct (filter (visible flag) after); [congruence | cbn in Hlen; lia].
  - destruct (filter (visible flag) after) as [|tool rem] eqn:Erem; [congruence|].
    clear Hrem.
    assert (Htool : In tool after /\ visible flag tool = true).
    { apply filter_In. rewrite Erem. now left. }
    destruct Htool as [Hin Hvis].
    assert (Hin' : In tool tools) by (rewrite Etools; apply in_or_app; now right).
    destruct (visible_fit tool Hin' Hvis) as [_ Hfits].
    destruct (take_fit_first tool rem Hfits) as (others & next & Etake).
    assert (Epage : page tools cursor flag = (tool :: others, next)).
    { unfold page. now rewrite Estart, Erem. }
    assert (Ereply : GetToolsList tools id cursor flag
                     = ReplyResult id (tools_json (tool :: others) next)).
    { rewrite GetToolsList_render by exact tools_close.
      unfold list_reply. rewrite Epage. now destruct tools. }
    destruct (take_fit_prefix _ _ Etake) as [[Elist ->] | (tool' & rest' & Elist & ->)].
    + exists [tool :: others]. split.
      * now apply last_page.
      * cbn [List.concat]. now rewrite app_nil_r.
    + rewrite Elist in Erem. change (tool :: others ++ tool' :: rest')
        with ((tool :: others) ++ tool' :: rest') in Erem.
      destruct (filter_split _ _ _ _ _ Erem) as (l1 & l2 & Eafter & El1 & El2 & Hvis').
      assert (Etools' : tools = (before ++ l1) ++ tool' :: l2)
        by (rewrite <- app_assoc, <- Eafter; exact Etools).
      assert (Hin2 : In tool' tools)
        by (rewrite Etools'; apply in_or_app; right; now left).
      destruct (visible_fit tool' Hin2 Hvis') as [Hname' _].
      assert (Estart' : start (McpTool.name tool') tools = tool' :: l2).
      { rewrite Etools'. apply start_at; [|exact Hname'].
        rewrite <- Etools'. exact names_distinct. }
      assert (Erem' : filter (visible flag) (tool' :: l2) = tool' :: rest')
        by (cbn [filter]; now rewrite Hvis', El2).
      destruct (IH (McpTool.name tool') (before ++ l1) (tool' :: l2) Etools' Estart')
        as (pages & Hpages & Econcat).
      * rewrite Erem'. discriminate.
      * rewrite Erem'. rewrite Elist in Hlen. cbn [List.length] in Hlen.
        rewrite length_app in Hlen. cbn [List.length] in *. lia.
      * exists ((tool :: others) :: pages). split.
        -- now apply next_page with (next := McpTool.name tool').
        -- cbn [List.concat]. rewrite Econcat, Erem', Elist. reflexivity.
Qed.

(** Chaining from the empty cursor lists every visible tool, in the stable
    order. *)
Lemma enumerates_registry :
  tools = [] \/ (exists tool, In tool tools /\ visible flag tool = true) ->
  exists pages,
    enumerates tools id flag EmptyString pages
    /\ List.concat pages = filter (visible flag) tools
    /\ NoDup (map McpTool.name (List.concat pages)).
Proof.
  intros Hsome.
  assert (Hnodup : NoDup (map McpTool.name (filter (visible flag) tools)))
    by (apply NoDup_names_filter; exact names_distinct).
  destruct Hsome as [Eempty | (tool & Hin & Hvis)].
  - exists [[]]. rewrite Eempty in *. split; [|split].
    + apply last_page. reflexivity.
    + reflexivity.
    + constructor.
  - destruct (@enumerates_rest (List.length (filter (visible flag) tools))
                EmptyString [] tools)
      as (pages & Hpages & Econcat); try reflexivity.
    + intros E. assert (Hf : In tool (filter (visible flag) tools))
        by (apply filter_In; auto).
      rewrite E in Hf. contradiction.
    + exists pages. rewrite Econcat. auto.
Qed.

End Chaining.

(** C1, amended.  (1) For the registry of three tools A, B, C that pass
    the filter, with the name of C not empty and different from the names
    of A and B, where A and B fit a page together, C does not fit with them
    and C fits a page on its own: tools/list with the empty cursor replies
    with exactly A and B and nextCursor the name of C, and tools/list with
    that cursor replies with exactly C and no nextCursor.  (2) For every
    registry with pairwise distinct names in which every tool that passes
    the filter has a non-empty name and fits a page on its own, and which
    is empty or holds a tool that passes the filter: the calls of
    tools/list that start with the empty cursor and follow each nextCursor
    are all answered with a result, the last one without nextCursor, and
    their tool lists together are the non-filtered tools of the registry,
    each exactly once, in the stable order. *)
Theorem paginated_listing_enumerates :
  (forall (A B C : McpTool.t) (id : Z) (flag : bool),
      Forall closes_object [A; B; C] ->
      Forall (fun tool => visible flag tool = true) [A; B; C] ->
      McpTool.name A <> McpTool.name C ->
      McpTool.name B <> McpTool.name C ->
      empty (McpTool.name C) = false ->
      page_size [A; B] + 30 <= max_payload_size ->
      page_size [A; B; C] + 30 > max_payload_size ->
      fits_alone C = true ->
      GetToolsList [A; B; C] id EmptyString flag
      = ReplyResult id (tools_json [A; B] (McpTool.name C))
      /\ GetToolsList [A; B; C] id (McpTool.name C) flag
         = ReplyResult id (tools_json [C] EmptyString))
  /\ (forall (tools : list McpTool.t) (id : Z) (flag : bool),
        Forall closes_object tools ->
        NoDup (map McpTool.name tools) ->
        (forall tool, In tool tools -> visible flag tool = true ->
                      empty (McpTool.name tool) = false /\ fits_alone tool = true) ->
        tools = [] \/ (exists tool, In tool tools /\ visible flag tool = true) ->
        exists pages,
          enumerates tools id flag EmptyString pages
          /\ List.concat pages = filter (visible flag) tools
          /\ NoDup (map McpTool.name (List.concat pages))).
Proof.
  split.
  - exact three_tools_two_pages.
  - exact enumerates_registry.
Qed.

(** *** The registry *)

Lemma has_tool_true (tool_name : string) (tools : list McpTool.t) :
  has_tool tool_name tools = true <->
  In tool_name (map McpTool.name tools).
Proof.
  unfold has_tool. rewrite existsb_exists, in_map_iff.
  split; intros (tool & H1 & H2).
  - apply String.eqb_eq in H2. now exists tool.
  - exists tool. split; [exact H2 | now apply String.eqb_eq].
Qed.

Lemma find_if_has_tool (tool_name : string) (tools : list McpTool.t) :
  has_tool tool_name tools = true ->
  exists i first,
    find_if (fun t => McpTool.name t == tool_name) tools = Some (i, first)
    /\ McpTool.name first = tool_name.
Proof.
  unfold has_tool. induction tools as [|tool rest IH]; cbn [existsb find_if].
  - discriminate.
  - destruct (McpTool.name tool == tool_name) eqn:E.
    + intros _. exists O, tool. split; [reflexivity | now apply String.eqb_eq].
    + cbn [orb]. intros H. destruct (IH H) as (i & first & -> & Hname).
      now exists (S i), first.
Qed.

Lemma AddTool_names_distinct (tool : McpTool.t) (tools : list McpTool.t) :
  NoDup (map McpTool.name tools) ->
  NoDup (map McpTool.name (AddTool tool tools)).
Proof.
  intros H. unfold AddTool.
  destruct (has_tool (McpTool.name tool) tools) eqn:E; [exact H|].
  rewrite map_app. cbn [map]. apply NoDup_app.
  - exact H.
  - constructor; [intros [] | constructor].
  - intros a Ha [<- | []].
    apply has_tool_true in Ha. congruence.
Qed.

(** A registry filled by [AddTool] alone has pairwise distinct names. *)
Lemma registered_names_distinct (batch : list McpTool.t) :
  NoDup (map McpTool.name
           (fold_left (fun registry tool => AddTool tool registry) batch [])).
Proof.
  assert (H : forall registry,
             NoDup (map McpTool.name registry) ->
             NoDup (map McpTool.name
                      (fold_left (fun registry tool => AddTool tool registry)
                                 batch registry))).
  { induction batch as [|tool rest IH]; intros registry Hreg; cbn [fold_left].
    - exact Hreg.
    - apply IH, AddTool_names_distinct, Hreg. }
  apply H. constructor.
Qed.

(** X26.  [AddTool] keeps the names of the registry pairwise distinct.  A
    tool whose name is that of a registered tool leaves the registry as it
    is (same size, same order), and its name resolves, before and after, to
    the tool registered first under it; any other tool is appended at the
    end. *)
Theorem AddTool_keeps_names_unique (tools : list McpTool.t) (tool : McpTool.t) :
  (NoDup (map McpTool.name tools) ->
   NoDup (map McpTool.name (AddTool tool tools)))
  /\ (has_tool (McpTool.name tool) tools = true ->
      AddTool tool tools = tools
      /\ exists i first,
           find_if (fun t => McpTool.name t == McpTool.name tool) tools
           = Some (i, first)
           /\ find_if (fun t => McpTool.name t == McpTool.name tool)
                      (AddTool tool tools)
              = Some (i, first))
  /\ (has_tool (McpTool.name tool) tools = false ->
      AddTool tool tools = tools ++ [tool]).
Proof.
  split; [apply AddTool_names_distinct | split]; intros H.
  - assert (E : AddTool tool tools = tools) by (unfold AddTool; now rewrite H).
    split; [exact E|].
    destruct (find_if_has_tool _ _ H) as (i & first & Hfind & _).
    exists i, first. now rewrite E.
  - unfold AddTool. now rewrite H.
Qed.

(** *** The argument binder *)

Lemma bind_argument_unsupplied (tool_arguments : option cJSON) (p : Property.t) :
  supplied tool_arguments p = false ->
  bind_argument tool_arguments p = Ok (p, false).
Proof.
  unfold supplied, bind_argument, wire_type_matches.
  destruct (cJSON_IsObject tool_arguments); cbn [andb]; [|reflexivity].
  destruct (Property.type p); cbn [type_eqb andb]; intros ->; reflexivity.
Qed.

Lemma bind_arguments_app (tool_arguments : option cJSON) :
  forall l1 l2,
    bind_arguments tool_arguments (l1 ++ l2)
    = (b1 <- bind_arguments tool_arguments l1 ;;
       match b1 with
       | MissingArgument n => Ok (MissingArgument n)
       | Bound l1' =>
           b2 <- bind_arguments tool_arguments l2 ;;
           match b2 with
           | Bound l2' => Ok (Bound (l1' ++ l2'))
           | MissingArgument n => Ok (MissingArgument n)
           end
       end).
Proof.
  induction l1 as [|argument rest IH]; intros l2.
  - cbn. destruct (bind_arguments tool_arguments l2) as [[|]|]; reflexivity.
  - cbn [app bind_arguments].
    destruct (bind_argument tool_arguments argument) as [[argument' found]|what];
      cbn [bind]; [|reflexivity].
    destruct (negb (Property.has_default_value argument') && negb found);
      [reflexivity|].
    rewrite IH.
    destruct (bind_arguments tool_arguments rest) as [[rest'|n]|what];
      cbn [bind]; try reflexivity.
    destruct (bind_arguments tool_arguments l2) as [[l2'|n]|what]; reflexivity.
Qed.

Lemma bind_arguments_length (tool_arguments : option cJSON) :
  forall arguments bound,
    bind_arguments tool_arguments arguments = Ok (Bound bound) ->
    List.length bound = List.length arguments.
Proof.
  induction arguments as [|argument rest IH]; intros bound; cbn [bind_arguments].
  - intros [= <-]. reflexivity.
  - destruct (bind_argument tool_arguments argument) as [[argument' found]|what];
      cbn [bind]; [|discriminate].
    destruct (negb (Property.has_default_value argument') && negb found);
      [discriminate|].
    destruct (bind_arguments tool_arguments rest) as [[rest'|n]|what];
      cbn [bind]; try discriminate.
    intros [= <-]. cbn [List.length]. f_equal. now apply IH.
Qed.

(** The loop at a property that is not supplied: it stops there when the
    property has no default, and passes it on unchanged when it has one. *)
Lemma bind_arguments_unsupplied (tool_arguments : option cJSON)
    (p : Property.t) (after : PropertyList) :
  supplied tool_arguments p = false ->
  bind_arguments tool_arguments (p :: after)
  = if Property.has_default_value p then
      b <- bind_arguments tool_arguments after ;;
      match b with
      | Bound rest' => Ok (Bound (p :: rest'))
      | MissingArgument n => Ok (MissingArgument n)
      end
    else Ok (MissingArgument (Property.name p)).
Proof.
  intros H. cbn [bind_arguments]. rewrite (bind_argument_unsupplied _ _ H).
  cbn [bind]. now destruct (Property.has_default_value p).
Qed.

(** C4, amended.  When a property of the called tool has no default and the
    caller's object holds no entry of its wire type under its name, the
    server sends one error reply and schedules nothing.  The message is
    "Missing valid argument: " followed by the name of that property when
    the properties before it in the schema all bind (it is then the first
    one missing); otherwise the reply is the one of the earlier property
    that stopped the loop. *)
Theorem missing_argument_rejected (tools : list McpTool.t) (id : Z)
    (tool_name : string) (tool_arguments : option cJSON)
    (tool_iter : nat) (tool : McpTool.t)
    (before : PropertyList) (p : Property.t) (after : PropertyList) :
  find_if (fun t => McpTool.name t == tool_name) tools = Some (tool_iter, tool) ->
  McpTool.properties tool = before ++ p :: after ->
  Property.has_default_value p = false ->
  supplied tool_arguments p = false ->
  (exists message,
      DoToolCall tools id tool_name tool_arguments = ReplyError id message)
  /\ (forall bound,
        bind_arguments tool_arguments before = Ok (Bound bound) ->
        DoToolCall tools id tool_name tool_arguments
        = ReplyError id ("Missing valid argument: " +++ Property.name p)).
Proof.
  intros Hfind Hprops Hdefault Hsupplied.
  unfold DoToolCall. rewrite Hfind, Hprops, bind_arguments_app.
  rewrite (bind_arguments_unsupplied _ _ after Hsupplied), Hdefault.
  split.
  - destruct (bind_arguments tool_arguments before) as [[bound|n]|what];
      cbn [bind]; eexists; reflexivity.
  - intros bound ->. reflexivity.
Qed.

(** C5.  When the caller supplies, under the name of a property that has a
    default, a value that is not of the declared wire type, the binder
    leaves the property as the schema has it (there it holds no bound
    value) and reports nothing for it: the value is not bound, so not
    coerced; if the other properties bind, the call is scheduled; and
    whenever the call is scheduled, the handler finds at the position of
    the property its default value. *)
Theorem wrong_type_binds_default (tools : list McpTool.t) (id : Z)
    (tool_name : string) (tool_arguments : option cJSON)
    (tool_iter : nat) (tool : McpTool.t)
    (before : PropertyList) (p : Property.t) (after : PropertyList)
    (value : cJSON) :
  find_if (fun t => McpTool.name t == tool_name) tools = Some (tool_iter, tool) ->
  McpTool.properties tool = before ++ p :: after ->
  Property.has_default_value p = true ->
  Property.bound_value p = None ->
  cJSON_GetObjectItem tool_arguments (Property.name p) = Some value ->
  wire_type_matches (Property.type p) (Some value) = false ->
  bind_argument tool_arguments p = Ok (p, false)
  /\ (forall b a,
        bind_arguments tool_arguments before = Ok (Bound b) ->
        bind_arguments tool_arguments after = Ok (Bound a) ->
        DoToolCall tools id tool_name tool_arguments
        = [Schedule id tool_iter (b ++ p :: a)])
  /\ (forall bound,
        DoToolCall tools id tool_name tool_arguments
        = [Schedule id tool_iter bound] ->
        exists p',
          nth_error bound (List.length before) = Some p'
          /\ Property.value p' = Property.default p).
Proof.
  intros Hfind Hprops Hdefault Hunbound Hvalue Htype.
  assert (Hsupplied : supplied tool_arguments p = false).
  { unfold supplied. rewrite Hvalue, Htype. apply andb_false_r. }
  assert (Hloop := bind_arguments_unsupplied _ _ after Hsupplied).
  rewrite Hdefault in Hloop.
  split; [now apply bind_argument_unsupplied | split].
  - intros b a Hb Ha. unfold DoToolCall.
    rewrite Hfind, Hprops, bind_arguments_app, Hb. cbn [bind].
    rewrite Hloop, Ha. reflexivity.
  - intros bound. unfold DoToolCall.
    rewrite Hfind, Hprops, bind_arguments_app, Hloop.
    destruct (bind_arguments tool_arguments before) as [[b|n]|what] eqn:Eb;
      cbn [bind]; try discriminate.
    destruct (bind_arguments tool_arguments after) as [[a|n]|what];
      cbn [bind]; try discriminate.
    intros [= <-]. exists p. split.
    + rewrite <- (bind_arguments_length _ _ Eb).
      rewrite nth_error_app2, Nat.sub_diag by lia. reflexivity.
    + unfold Property.value. now rewrite Hunbound.
Qed.

(** *** Visibility *)

Lemma take_fit_incl :
  forall candidates size listed next,
    take_fit size candidates = (listed, next) -> incl listed candidates.
Proof.
  intros candidates size listed next E tool Hin.
  destruct (take_fit_prefix _ _ E) as [[-> _] | (tool' & rest & -> & _)].
  - exact Hin.
  - apply in_or_app. now left.
Qed.

Lemma find_if_ext {A : Type} (pred : A -> bool) (g : A -> A) :
  (forall x, pred (g x) = pred x) ->
  forall l,
    find_if pred (map g l)
    = match find_if pred l with
      | Some (i, x) => Some (i, g x)
      | None => None
      end.
Proof.
  intros Hg. induction l as [|x l IH]; cbn [map find_if]; [reflexivity|].
  rewrite Hg. destruct (pred x); [reflexivity|].
  rewrite IH. now destruct (find_if pred l) as [[i y]|].
Qed.

(** C9.  Without the flag, tools/list never lists a user-only tool.  A
    call by name finds every registered tool, user-only or not, and goes on
    to binding and scheduling, never to the reply for an unknown tool; and
    the flags play no part in it: with the user-only flags of the registry
    set in any other way, tools/call has the same effects. *)
Theorem user_only_hidden_but_callable :
  (forall tools id cursor,
      Forall closes_object tools ->
      GetToolsList tools id cursor false
      = render id (list_reply tools cursor false)
      /\ forall listed next,
           list_reply tools cursor false = ListedTools listed next ->
           forall tool, In tool listed -> McpTool.user_only tool = false)
  /\ (forall tools id tool tool_arguments,
        In tool tools ->
        exists tool_iter found,
          find_if (fun t => McpTool.name t == McpTool.name tool) tools
          = Some (tool_iter, found)
          /\ McpTool.name found = McpTool.name tool
          /\ DoToolCall tools id (McpTool.name tool) tool_arguments
             = match bind_arguments tool_arguments (McpTool.properties found) with
               | Throw what => ReplyError id what
               | Ok (MissingArgument n) =>
                   ReplyError id ("Missing valid argument: " +++ n)
               | Ok (Bound arguments) => [Schedule id tool_iter arguments]
               end)
  /\ (forall (flags : McpTool.t -> bool) tools id tool_name tool_arguments,
        DoToolCall (map (fun t => McpTool.set_user_only (flags t) t) tools)
                   id tool_name tool_arguments
        = DoToolCall tools id tool_name tool_arguments).
Proof.
  split; [|split].
  - intros tools id cursor Hjson. split; [now apply GetToolsList_render|].
    intros listed next E tool Hin.
    apply list_reply_listed in E. unfold page in E.
    apply (take_fit_incl _ _ E) in Hin.
    apply filter_In in Hin as [_ Hvis]. unfold visible in Hvis.
    cbn [orb] in Hvis. now apply negb_true_iff in Hvis.
  - intros tools id tool tool_arguments Hin.
    assert (Hhas : has_tool (McpTool.name tool) tools = true)
      by (apply has_tool_true, in_map, Hin).
    destruct (find_if_has_tool _ _ Hhas) as (i & found & Hfind & Hname).
    exists i, found. unfold DoToolCall. rewrite Hfind. auto.
  - intros flags tools id tool_name tool_arguments. unfold DoToolCall.
    rewrite (find_if_ext (fun t => McpTool.name t == tool_name)
               (fun t => McpTool.set_user_only (flags t) t))
      by reflexivity.
    now destruct (find_if (fun t => McpTool.name t == tool_name) tools)
      as [[i found]|].
Qed.

(** *** The dispatcher *)

(** C6.  A message that fails a check of the envelope (jsonrpc absent, not
    a string or not 2.0; method absent or not a string; params present and
    not an object; id absent or not a number) has no effect at all: no
    reply is sent, of either kind, and nothing is scheduled. *)
Theorem malformed_envelope_dropped (tools : list McpTool.t) (json : cJSON) :
  malformed_envelope json -> ParseMessage tools json = [].
Proof.
  unfold malformed_envelope, ParseMessage. cbv zeta.
  set (jsonrpc := cJSON_GetObjectItem (Some json) "jsonrpc").
  set (method := cJSON_GetObjectItem (Some json) "method").
  set (params := cJSON_GetObjectItem (Some json) "params").
  set (id := cJSON_GetObjectItem (Some json) "id").
  intros Hbad.
  destruct (is_null jsonrpc || negb (cJSON_IsString jsonrpc)
            || negb (valuestring jsonrpc == "2.0")) eqn:E1; [reflexivity|].
  destruct (is_null method || negb (cJSON_IsString method)) eqn:E2; [reflexivity|].
  destruct (String.prefix "notifications" (valuestring method)); [reflexivity|].
  destruct (negb (is_null params) && negb (cJSON_IsObject params)) eqn:E3;
    [reflexivity|].
  destruct (is_null id || negb (cJSON_IsNumber id)) eqn:E4; [reflexivity|].
  exfalso.
  apply orb_false_iff in E1 as [E1 E1c]. apply orb_false_iff in E1 as [E1a E1b].
  apply orb_false_iff in E2 as [E2a E2b].
  apply orb_false_iff in E4 as [E4a E4b].
  apply negb_false_iff in E1b, E1c, E2b, E4b. apply String.eqb_eq in E1c.
  destruct Hbad as [[H | [H | H]] | [[H | H] | [[H1 H2] | [H | H]]]].
  - rewrite H in E1a. discriminate.
  - congruence.
  - contradiction.
  - rewrite H in E2a. discriminate.
  - congruence.
  - rewrite H2 in E3. destruct params; [discriminate | contradiction].
  - rewrite H in E4a. discriminate.
  - congruence.
Qed.

End Server.

(** ** Worked cases

    A serialization, an exception text and a few tools to run the server
    on. *)

Definition sample_to_json (tool : McpTool.t) : string :=
  "{" +++ quoted "name" +++ ":" +++ quoted (McpTool.name tool) +++ ","
  +++ quoted "description" +++ ":" +++ quoted (McpTool.description tool) +++ "}".

Definition sample_range_error (p : Property.t) (i : Z) : string :=
  "Value out of range: " +++ Property.name p.

Fixpoint filler (n : nat) : string :=
  match n with
  | O => EmptyString
  | S n => String "x" (filler n)
  end.

Definition sample_tool (name description : string) (properties : PropertyList)
    (user_only : bool) : McpTool.t :=
  McpTool.make name description properties (fun _ => Ok (return_bool true)) user_only.

Definition alpha : McpTool.t := sample_tool "alpha" (filler (Z.to_nat 3000)) [] false.
Definition beta : McpTool.t := sample_tool "beta" (filler (Z.to_nat 3000)) [] false.
Definition gamma : McpTool.t := sample_tool "gamma" (filler (Z.to_nat 3000)) [] false.
Definition huge : McpTool.t := sample_tool "huge" (filler (Z.to_nat 8000)) [] false.
Definition hidden : McpTool.t := sample_tool "hidden" "for the user" [] true.

(** A required integer with a range, a required text, and a boolean with
    a default. *)
Definition volume : Property.t :=
  Property.make "volume" kPropertyTypeInteger None (Some (0, 100)) None.
Definition url : Property.t :=
  Property.make "url" kPropertyTypeString None None None.
Definition quality : Property.t :=
  Property.make "quality" kPropertyTypeInteger (Some (value_int 80)) (Some (1, 100)) None.

Definition upload : McpTool.t :=
  sample_tool "upload" "Upload a snapshot" [volume; url] true.
Definition snapshot : McpTool.t :=
  sample_tool "snapshot" "Take a snapshot" [url; quality] true.

Ltac names_distinct :=
  cbn; repeat (constructor; [cbn; intuition discriminate|]); constructor.

Ltac all_close :=
  repeat (constructor; [reflexivity|]); constructor.

(** C1, as stated, fails where the third tool does not fit a page even on
    its own: the first page is as claimed, but the call with the cursor it
    returns is answered with the error of the budget, not with the third
    tool. *)
Lemma paginated_listing_counterexample :
  page_size sample_to_json [alpha; beta] + 30 <= max_payload_size
  /\ page_size sample_to_json [alpha; beta; huge] + 30 > max_payload_size
  /\ GetToolsList sample_to_json [alpha; beta; huge] 1 EmptyString false
     = ReplyResult 1 (tools_json sample_to_json [alpha; beta] "huge")
  /\ GetToolsList sample_to_json [alpha; beta; huge] 1 "huge" false
     = ReplyError 1 "Failed to add tool huge because of payload size limit"
  /\ GetToolsList sample_to_json [alpha; beta; huge] 1 "huge" false
     <> ReplyResult 1 (tools_json sample_to_json [huge] EmptyString).
Proof.
  assert (E : GetToolsList sample_to_json [alpha; beta; huge] 1 "huge" false
              = ReplyError 1 "Failed to add tool huge because of payload size limit")
    by (vm_compute; reflexivity).
  split; [ | split; [ | split; [ | split ] ] ].
  - vm_compute. congruence.
  - vm_compute. reflexivity.
  - vm_compute. reflexivity.
  - exact E.
  - rewrite E. intros H. symmetry in H. exact (ReplyResult_neq_ReplyError H).
Qed.

(** The chain cannot start on a registry whose tools are all filtered. *)
Lemma all_filtered_registry_fails :
  GetToolsList sample_to_json [hidden] 1 EmptyString false
  = ReplyError 1 "Failed to add tool  because of payload size limit".
Proof. vm_compute. reflexivity. Qed.

Lemma paginated_listing_enumerates_witness :
  (GetToolsList sample_to_json [alpha; beta; gamma] 1 EmptyString false
   = ReplyResult 1 (tools_json sample_to_json [alpha; beta] "gamma")
   /\ GetToolsList sample_to_json [alpha; beta; gamma] 1 "gamma" false
      = ReplyResult 1 (tools_json sample_to_json [gamma] EmptyString))
  /\ exists pages,
       enumerates sample_to_json [alpha; hidden; beta; gamma] 1 false EmptyString pages
       /\ List.concat pages = filter (visible false) [alpha; hidden; beta; gamma]
       /\ NoDup (map McpTool.name (List.concat pages)).
Proof.
  destruct (paginated_listing_enumerates sample_to_json) as [Hthree Hchain].
  split.
  - apply Hthree; try (vm_compute; congruence).
    + all_close.
    + repeat (constructor; [reflexivity|]); constructor.
  - apply Hchain.
    + all_close.
    + names_distinct.
    + intros tool [<- | [<- | [<- | [<- | []]]]] _; split; vm_compute; reflexivity.
    + right. exists alpha. split; [now left | reflexivity].
Defined.

(** C2, as stated, fails on the first tool of a registry of two: the reply
    to the cursor that names it lists that tool itself. *)
Lemma cursor_resumes_counterexample :
  nth_error [alpha; beta] 0 = Some alpha
  /\ GetToolsList sample_to_json [alpha; beta] 1 (McpTool.name alpha) false
     = ReplyResult 1 (tools_json sample_to_json [alpha; beta] EmptyString)
  /\ ~ In alpha (skipn 1 [alpha; beta]).
Proof.
  split; [reflexivity | split].
  - vm_compute. reflexivity.
  - cbn. intros [H | []]. apply (f_equal McpTool.name) in H. discriminate H.
Qed.

Lemma cursor_resumes_at_named_tool_witness :
  GetToolsList sample_to_json [alpha; hidden; beta; gamma] 1 "beta" false
  = render sample_to_json 1
      (list_reply sample_to_json [alpha; hidden; beta; gamma] "beta" false)
  /\ (forall listed next,
        list_reply sample_to_json [alpha; hidden; beta; gamma] "beta" false
        = ListedTools listed next ->
        exists rest,
          filter (visible false) (skipn 2 [alpha; hidden; beta; gamma])
          = listed ++ rest)
  /\ (visible false beta = true -> fits_alone sample_to_json beta = true ->
      exists others next,
        list_reply sample_to_json [alpha; hidden; beta; gamma] "beta" false
        = ListedTools (beta :: others) next).
Proof.
  apply (@cursor_resumes_at_named_tool sample_to_json
           [alpha; hidden; beta; gamma] 2 beta 1 false).
  - all_close.
  - names_distinct.
  - reflexivity.
  - reflexivity.
Defined.

(** C3, as stated, fails on a registry that holds a tool: a cursor that
    names none is answered with an error. *)
Lemma unmatched_cursor_counterexample :
  empty "nowhere" = false
  /\ has_tool "nowhere" [alpha] = false
  /\ GetToolsList sample_to_json [alpha] 1 "nowhere" false
     = ReplyError 1 "Failed to add tool  because of payload size limit"
  /\ GetToolsList sample_to_json [alpha] 1 "nowhere" false
     <> ReplyResult 1 ("{" +++ quoted "tools" +++ ":[]}").
Proof.
  assert (E : GetToolsList sample_to_json [alpha] 1 "nowhere" false
              = ReplyError 1 "Failed to add tool  because of payload size limit")
    by (vm_compute; reflexivity).
  split; [ | split; [ | split ] ].
  - reflexivity.
  - reflexivity.
  - exact E.
  - rewrite E. intros H. symmetry in H. exact (ReplyResult_neq_ReplyError H).
Qed.

Lemma unmatched_cursor_reply_witness :
  GetToolsList sample_to_json [alpha; hidden] 1 "nowhere" true
  = ReplyError 1 "Failed to add tool  because of payload size limit"
  /\ GetToolsList sample_to_json [] 1 "nowhere" true
     = ReplyResult 1 ("{" +++ quoted "tools" +++ ":[]}").
Proof.
  split.
  - apply (unmatched_cursor_reply sample_to_json [alpha; hidden] 1 "nowhere" true);
      reflexivity.
  - apply (unmatched_cursor_reply sample_to_json [] 1 "nowhere" true);
      reflexivity.
Defined.

Lemma empty_registry_lists_nothing_witness :
  GetToolsList sample_to_json [alpha] 1 "nowhere" false
  = ReplyError 1 "Failed to add tool  because of payload size limit"
  /\ [alpha] <> [].
Proof.
  assert (E : GetToolsList sample_to_json [alpha] 1 "nowhere" false
              = ReplyError 1 "Failed to add tool  because of payload size limit")
    by (vm_compute; reflexivity).
  split; [exact E|].
  exact (proj2 (empty_registry_lists_nothing sample_to_json) _ _ _ _ _ E).
Defined.

(** C4, as stated, fails where two required properties are missing: the
    reply names the first of them, so for the second one no reply with its
    name is sent, with either spelling of the first word. *)
Lemma missing_argument_counterexample :
  Property.has_default_value url = false
  /\ supplied (Some (cJSON_Object [])) url = false
  /\ DoToolCall sample_range_error [alpha; upload] 3 "upload" (Some (cJSON_Object []))
     = ReplyError 3 "Missing valid argument: volume"
  /\ DoToolCall sample_range_error [alpha; upload] 3 "upload" (Some (cJSON_Object []))
     <> ReplyError 3 "missing valid argument: url"
  /\ DoToolCall sample_range_error [alpha; upload] 3 "upload" (Some (cJSON_Object []))
     <> ReplyError 3 "Missing valid argument: url".
Proof.
  split; [ | split; [ | split; [ | split ] ] ]; try reflexivity.
  - vm_compute. intros H. discriminate H.
  - vm_compute. intros H. discriminate H.
Qed.

Lemma missing_argument_rejected_witness :
  (exists message,
      DoToolCall sample_range_error [alpha; upload] 3 "upload"
        (Some (cJSON_Object [("volume", cJSON_Number 40); ("url", cJSON_Number 7)]))
      = ReplyError 3 message)
  /\ (forall bound,
        bind_arguments sample_range_error
          (Some (cJSON_Object [("volume", cJSON_Number 40); ("url", cJSON_Number 7)]))
          [volume] = Ok (Bound bound) ->
        DoToolCall sample_range_error [alpha; upload] 3 "upload"
          (Some (cJSON_Object [("volume", cJSON_Number 40); ("url", cJSON_Number 7)]))
        = ReplyError 3 ("Missing valid argument: " +++ Property.name url)).
Proof.
  apply (@missing_argument_rejected sample_range_error [alpha; upload] 3 "upload"
           (Some (cJSON_Object [("volume", cJSON_Number 40); ("url", cJSON_Number 7)]))
           1%nat upload [volume] url []);
    reflexivity.
Defined.

(** An earlier property out of its range stops the loop first: the reply
    carries the text of the exception. *)
Lemma range_violation_replies_first :
  DoToolCall sample_range_error [alpha; upload] 3 "upload"
    (Some (cJSON_Object [("volume", cJSON_Number 150)]))
  = ReplyError 3 "Value out of range: volume".
Proof. reflexivity. Qed.

Lemma wrong_type_binds_default_witness :
  let tool_arguments :=
    Some (cJSON_Object [("url", cJSON_String "http://host/a");
                        ("quality", cJSON_String "high")]) in
  bind_argument sample_range_error tool_arguments quality = Ok (quality, false)
  /\ (forall b a,
        bind_arguments sample_range_error tool_arguments [url] = Ok (Bound b) ->
        bind_arguments sample_range_error tool_arguments [] = Ok (Bound a) ->
        DoToolCall sample_range_error [alpha; snapshot] 3 "snapshot" tool_arguments
        = [Schedule 3 1 (b ++ quality :: a)])
  /\ (forall bound,
        DoToolCall sample_range_error [alpha; snapshot] 3 "snapshot" tool_arguments
        = [Schedule 3 1 bound] ->
        exists p',
          nth_error bound (List.length [url]) = Some p'
          /\ Property.value p' = Property.default quality).
Proof.
  intros tool_arguments.
  apply (@wrong_type_binds_default sample_range_error [alpha; snapshot] 3 "snapshot"
           tool_arguments 1%nat snapshot [url] quality []
           (cJSON_String "high"));
    reflexivity.
Defined.

(** The call of the witness is scheduled, with the default in place. *)
Lemma wrong_type_call_is_scheduled :
  DoToolCall sample_range_error [alpha; snapshot] 3 "snapshot"
    (Some (cJSON_Object [("url", cJSON_String "http://host/a");
                         ("quality", cJSON_String "high")]))
  = [Schedule 3 1
       [Property.with_value (value_string "http://host/a") url; quality]]
  /\ Property.value quality = Some (value_int 80).
Proof. split; reflexivity. Qed.

Lemma malformed_envelope_dropped_witness :
  let no_id :=
    cJSON_Object [("jsonrpc", cJSON_String "2.0");
                  ("method", cJSON_String "tools/list")] in
  let old_version :=
    cJSON_Object [("jsonrpc", cJSON_String "1.0");
                  ("method", cJSON_String "tools/list");
                  ("id", cJSON_Number 4)] in
  malformed_envelope no_id
  /\ ParseMessage sample_to_json sample_range_error "atk-robot" "1.0.0" false
       [alpha] no_id = []
  /\ ParseMessage sample_to_json sample_range_error "atk-robot" "1.0.0" false
       [alpha] old_version = [].
Proof.
  intros no_id old_version.
  assert (Hno_id : malformed_envelope no_id)
    by (unfold malformed_envelope; cbn; right; right; right; left; reflexivity).
  assert (Hold : malformed_envelope old_version)
    by (unfold malformed_envelope; cbn; left; right; right; discriminate).
  split; [exact Hno_id | split].
  - exact (malformed_envelope_dropped sample_to_json sample_range_error
             "atk-robot" "1.0.0" false [alpha] Hno_id).
  - exact (malformed_envelope_dropped sample_to_json sample_range_error
             "atk-robot" "1.0.0" false [alpha] Hold).
Defined.

(** A well-formed request of the same shape is answered. *)
Lemma well_formed_envelope_answered :
  ParseMessage sample_to_json sample_range_error "atk-robot" "1.0.0" false [hidden]
    (cJSON_Object [("jsonrpc", cJSON_String "2.0");
                   ("method", cJSON_String "tools/list");
                   ("params", cJSON_Object [("withUserTools", cJSON_True)]);
                   ("id", cJSON_Number 4)])
  = ReplyResult 4 (tools_json sample_to_json [hidden] EmptyString).
Proof. reflexivity. Qed.

Lemma AddTool_keeps_names_unique_witness :
  let again := sample_tool "alpha" "another handler" [url] true in
  NoDup (map McpTool.name (AddTool again [alpha; beta]))
  /\ (AddTool again [alpha; beta] = [alpha; beta]
      /\ exists i first,
           find_if (fun t => McpTool.name t == McpTool.name again) [alpha; beta]
           = Some (i, first)
           /\ find_if (fun t => McpTool.name t == McpTool.name again)
                      (AddTool again [alpha; beta])
              = Some (i, first))
  /\ AddTool gamma [alpha; beta] = [alpha; beta] ++ [gamma].
Proof.
  intros again.
  destruct (AddTool_keeps_names_unique [alpha; beta] again) as (H1 & H2 & _).
  destruct (AddTool_keeps_names_unique [alpha; beta] gamma) as (_ & _ & H3).
  split; [ | split ].
  - apply H1. names_distinct.
  - apply H2. reflexivity.
  - apply H3. reflexivity.
Defined.

(** Tools set aside by [AddCommonTools] come back without the check of
    [AddTool]: a name registered before can then occur twice. *)
Lemma AddCommonTools_may_repeat_a_name :
  map McpTool.name (AddCommonTools [alpha; beta] [sample_tool "alpha" "board" [] false])
  = ["alpha"; "beta"; "alpha"].
Proof. reflexivity. Qed.

Lemma user_only_hidden_but_callable_witness :
  (GetToolsList sample_to_json [alpha; snapshot] 1 EmptyString false
   = render sample_to_json 1 (list_reply sample_to_json [alpha; snapshot] EmptyString false)
   /\ forall listed next,
        list_reply sample_to_json [alpha; snapshot] EmptyString false
        = ListedTools listed next ->
        forall tool, In tool listed -> McpTool.user_only tool = false)
  /\ exists tool_iter found,
       find_if (fun t => McpTool.name t == McpTool.name snapshot) [alpha; snapshot]
       = Some (tool_iter, found)
       /\ McpTool.name found = McpTool.name snapshot
       /\ DoToolCall sample_range_error [alpha; snapshot] 3 (McpTool.name snapshot)
            (Some (cJSON_Object [("url", cJSON_String "u")]))
          = match bind_arguments sample_range_error
                    (Some (cJSON_Object [("url", cJSON_String "u")]))
                    (McpTool.properties found) with
            | Throw what => ReplyError 3 what
            | Ok (MissingArgument n) => ReplyError 3 ("Missing valid argument: " +++ n)
            | Ok (Bound arguments) => [Schedule 3 tool_iter arguments]
            end.
Proof.
  destruct (user_only_hidden_but_callable sample_to_json sample_range_error)
    as (Hlist & Hcall & _).
  split.
  - apply Hlist. all_close.
  - apply Hcall. right. now left.
Defined.

(** The user-only tool of the witness is listed with the flag only, and
    called without it. *)
Lemma user_only_tool_listed_and_called :
  GetToolsList sample_to_json [alpha; snapshot] 1 EmptyString false
  = ReplyResult 1 (tools_json sample_to_json [alpha] EmptyString)
  /\ GetToolsList sample_to_json [alpha; snapshot] 1 EmptyString true
     = ReplyResult 1 (tools_json sample_to_json [alpha; snapshot] EmptyString)
  /\ DoToolCall sample_range_error [alpha; snapshot] 3 "snapshot"
       (Some (cJSON_Object [("url", cJSON_String "u")]))
     = [Schedule 3 1 [Property.with_value (value_string "u") url; quality]].
Proof. split; [ | split ]; vm_compute; reflexivity. Qed.

(** ** More on tools/list: the budget *)

Section Budget.

Variable to_json : McpTool.t -> string.

Lemma page_size_app (listed : list McpTool.t) (tool : McpTool.t) :
  page_size to_json (listed ++ [tool])
  = page_size to_json listed + len (to_json tool +++ ",").
Proof.
  induction listed as [|first rest IH]; cbn [app].
  - rewrite page_size_cons, page_size_nil. lia.
  - rewrite !page_size_cons, IH. lia.
Qed.

(** [take_fit] keeps the running length within the budget, and where it
    stops before the end, one more tool would leave it. *)
Lemma take_fit_budget :
  forall candidates done listed next,
    take_fit to_json (page_size to_json done) candidates = (listed, next) ->
    page_size to_json done + 30 <= max_payload_size ->
    page_size to_json (done ++ listed) + 30 <= max_payload_size
    /\ ((candidates = listed /\ next = EmptyString)
        \/ exists tool rest,
             candidates = listed ++ tool :: rest
             /\ next = McpTool.name tool
             /\ page_size to_json ((done ++ listed) ++ [tool]) + 30 > max_payload_size).
Proof.
  induction candidates as [|tool rest IH]; intros done listed next; cbn [take_fit].
  - intros [= <- <-] Hdone. rewrite app_nil_r. auto.
  - destruct (Z.gtb_spec (page_size to_json done + len (to_json tool +++ ",") + 30)
                max_payload_size) as [Hover | Hfits].
    + intros [= <- <-] Hdone. rewrite app_nil_r. split; [exact Hdone|].
      right. exists tool, rest. rewrite page_size_app. repeat split. lia.
    + rewrite <- page_size_app.
      destruct (take_fit to_json (page_size to_json (done ++ [tool])) rest)
        as [listed' next'] eqn:E.
      intros [= <- <-] Hdone.
      destruct (IH _ _ _ E) as [Hbudget Hstop].
      { rewrite page_size_app. exact Hfits. }
      rewrite <- app_assoc in Hbudget, Hstop. cbn [app] in Hbudget, Hstop.
      split; [exact Hbudget|].
      destruct Hstop as [[-> ->] | (tool' & rest' & -> & -> & Hover)].
      * now left.
      * right. exists tool', rest'. auto.
Qed.

(** X9.  A page of tools/list is within the budget and as long as the
    budget allows: the tools listed are, in order, the first non-filtered
    tools from the cursor on; the text accumulated for them, with the
    allowance of 30, does not exceed 8000; and when the reply has a
    nextCursor, it is the name of the next non-filtered tool, which would
    have taken the text over that limit. *)
Theorem page_within_budget_and_maximal (tools : list McpTool.t) (id : Z)
    (cursor : string) (flag : bool) (listed : list McpTool.t) (next : string) :
  Forall (closes_object to_json) tools ->
  list_reply to_json tools cursor flag = ListedTools listed next ->
  GetToolsList to_json tools id cursor flag
  = ReplyResult id (tools_json to_json listed next)
  /\ page_size to_json listed + 30 <= max_payload_size
  /\ ((filter (visible flag) (start cursor tools) = listed /\ next = EmptyString)
      \/ exists tool rest,
           filter (visible flag) (start cursor tools) = listed ++ tool :: rest
           /\ next = McpTool.name tool
           /\ page_size to_json (listed ++ [tool]) + 30 > max_payload_size).
Proof.
  intros Hjson Hreply. split.
  - rewrite GetToolsList_render by exact Hjson. now rewrite Hreply.
  - apply list_reply_listed in Hreply. unfold page in Hreply.
    apply (@take_fit_budget _ [] _ _) in Hreply; [exact Hreply|].
    rewrite page_size_nil. unfold max_payload_size. lia.
Qed.

Lemma len_joined (listed : list McpTool.t) :
  listed <> [] ->
  len (String.concat "," (map to_json listed)) + 11 = page_size to_json listed.
Proof.
  intros Hlisted. unfold page_size.
  rewrite (accumulated_joined to_json Hlisted).
  rewrite (len_append ("{" +++ quoted "tools" +++ ":[")).
  rewrite (len_append (String.concat "," (map to_json listed))).
  change (len ("{" +++ quoted "tools" +++ ":[")) with 10.
  change (len ",") with 1. lia.
Qed.

(** X10.  The length of the result object of tools/list.  Without
    nextCursor it is at most 7971; with a nextCursor it is at most 7987
    plus the length of that name; so the object is within 8000 whenever
    the name of the next tool has at most 13 characters. *)
Theorem result_length_bound (tools : list McpTool.t) (cursor : string)
    (flag : bool) (listed : list McpTool.t) (next : string) :
  list_reply to_json tools cursor flag = ListedTools listed next ->
  (empty next = true ->
   len (tools_json to_json listed next) <= max_payload_size - 29)
  /\ len (tools_json to_json listed next) <= max_payload_size - 13 + len next
  /\ (len next <= 13 ->
      len (tools_json to_json listed next) <= max_payload_size).
Proof.
  intros Hreply. apply list_reply_listed in Hreply. unfold page in Hreply.
  apply (@take_fit_budget _ [] _ _) in Hreply;
    [|rewrite page_size_nil; unfold max_payload_size; lia].
  destruct Hreply as [Hbudget _]. cbn [app] in Hbudget.
  assert (Hbody : len (String.concat "," (map to_json listed)) + 11
                  <= max_payload_size - 30).
  { destruct listed as [|tool rest].
    - cbn. unfold max_payload_size. lia.
    - rewrite (len_joined (listed := tool :: rest)) by discriminate. lia. }
  pose proof (len_nonneg next) as Hnext.
  unfold tools_json. rewrite !len_append.
  change (len "{") with 1. change (len (quoted "tools")) with 7.
  change (len ":[") with 2.
  destruct (empty next) eqn:E.
  - change (len "]}") with 2. unfold max_payload_size in *.
    split; [intros _ | split; [|intros _]]; lia.
  - rewrite !len_append. unfold quoted. rewrite !len_append.
    change (len "],") with 2. change (len dquote) with 1.
    change (len "nextCursor") with 10. change (len ":") with 1.
    change (len "}") with 1. unfold max_payload_size in *.
    split; [discriminate | split; [|intros Hshort]]; lia.
Qed.

(** X11.  On a registry that holds a tool, tools/list is answered with an
    error exactly when nothing can be listed: no tool from the cursor on
    passes the filter, or the first one that does is too long for a page
    of its own. *)
Theorem list_fails_iff_nothing_fits (tools : list McpTool.t) (id : Z)
    (cursor : string) (flag : bool) :
  Forall (closes_object to_json) tools ->
  tools <> [] ->
  (exists message, GetToolsList to_json tools id cursor flag = ReplyError id message)
  <-> match filter (visible flag) (start cursor tools) with
      | [] => True
      | first :: _ => fits_alone to_json first = false
      end.
Proof.
  intros Hjson Htools. rewrite GetToolsList_render by exact Hjson.
  unfold list_reply, page.
  destruct (filter (visible flag) (start cursor tools)) as [|first rest].
  - cbn [take_fit]. destruct tools; [congruence|]. cbn [render].
    split; [trivial | intros _; eexists; reflexivity].
  - destruct (fits_alone to_json first) eqn:Hfits.
    + destruct (take_fit_first to_json first rest Hfits) as (others & next & ->).
      split; [|discriminate]. intros [message E].
      destruct tools; exfalso; exact (ReplyResult_neq_ReplyError E).
    + unfold fits_alone in Hfits. rewrite page_size_cons in Hfits.
      apply Z.leb_gt in Hfits. cbn [take_fit].
      destruct (Z.gtb_spec (page_size to_json [] + len (to_json first +++ ",") + 30)
                  max_payload_size) as [_ | Hle]; [|lia].
      destruct tools; [congruence|]. cbn [render].
      split; [reflexivity | intros _; eexists; reflexivity].
Qed.

End Budget.

(** The bound with a nextCursor is reached: after a page filled to the
    budget, a next tool with a name of 29 characters takes the result
    object to 7987 + 29, over 8000. *)
Lemma result_may_exceed_budget :
  let first := sample_tool "a" (filler (Z.to_nat 7930)) [] false in
  let second := sample_tool "self.audio_speaker.set_volume" (filler (Z.to_nat 100)) [] false in
  GetToolsList sample_to_json [first; second] 1 EmptyString false
  = ReplyResult 1 (tools_json sample_to_json [first] "self.audio_speaker.set_volume")
  /\ len (tools_json sample_to_json [first] "self.audio_speaker.set_volume") = 8016.
Proof. split; vm_compute; reflexivity. Qed.

Lemma page_within_budget_and_maximal_witness :
  GetToolsList sample_to_json [alpha; hidden; beta; gamma] 1 EmptyString false
  = ReplyResult 1 (tools_json sample_to_json [alpha; beta] "gamma")
  /\ page_size sample_to_json [alpha; beta] + 30 <= max_payload_size
  /\ ((filter (visible false) (start EmptyString [alpha; hidden; beta; gamma])
       = [alpha; beta] /\ "gamma" = EmptyString)
      \/ exists tool rest,
           filter (visible false) (start EmptyString [alpha; hidden; beta; gamma])
           = [alpha; beta] ++ tool :: rest
           /\ "gamma" = McpTool.name tool
           /\ page_size sample_to_json ([alpha; beta] ++ [tool]) + 30 > max_payload_size).
Proof.
  apply (@page_within_budget_and_maximal sample_to_json
           [alpha; hidden; beta; gamma] 1 EmptyString false [alpha; beta] "gamma").
  - all_close.
  - vm_compute. reflexivity.
Defined.

Lemma result_length_bound_witness :
  (empty "gamma" = true ->
   len (tools_json sample_to_json [alpha; beta] "gamma") <= max_payload_size - 29)
  /\ len (tools_json sample_to_json [alpha; beta] "gamma")
     <= max_payload_size - 13 + len "gamma"
  /\ (len "gamma" <= 13 ->
      len (tools_json sample_to_json [alpha; beta] "gamma") <= max_payload_size).
Proof.
  apply (@result_length_bound sample_to_json
           [alpha; hidden; beta; gamma] EmptyString false [alpha; beta] "gamma").
  vm_compute. reflexivity.
Defined.

Lemma list_fails_iff_nothing_fits_witness :
  (exists message,
      GetToolsList sample_to_json [alpha; huge] 1 "huge" false = ReplyError 1 message)
  <-> match filter (visible false) (start "huge" [alpha; huge]) with
      | [] => True
      | first :: _ => fits_alone sample_to_json first = false
      end.
Proof.
  apply (@list_fails_iff_nothing_fits sample_to_json [alpha; huge] 1 "huge" false).
  - all_close.
  - discriminate.
Defined.

(** ** More on tools/call and on the dispatcher *)

(** A message that passes the checks of the envelope: version 2.0, the
    method [method_str] (not a notification), [params] absent or an
    object, and the numeric id [id_int]. *)
Definition request (json : cJSON) (method_str : string) (params : option cJSON)
    (id_int : Z) : Prop :=
  cJSON_GetObjectItem (Some json) "jsonrpc" = Some (cJSON_String "2.0")
  /\ cJSON_GetObjectItem (Some json) "method" = Some (cJSON_String method_str)
  /\ String.prefix "notifications" method_str = false
  /\ cJSON_GetObjectItem (Some json) "params" = params
  /\ (params = None \/ cJSON_IsObject params = true)
  /\ cJSON_GetObjectItem (Some json) "id" = Some (cJSON_Number id_int).

(** The requests used in the worked cases. *)
Definition make_request (method_str : string) (params : option cJSON) (id_int : Z)
  : cJSON :=
  cJSON_Object
    ([("jsonrpc", cJSON_String "2.0"); ("method", cJSON_String method_str)]
     ++ match params with Some p => [("params", p)] | None => [] end
     ++ [("id", cJSON_Number id_int)]).

Section Routes.

Variable to_json : McpTool.t -> string.
Variable range_error : Property.t -> Z -> string.
Variable BOARD_NAME : string.
Variable app_version : string.
Variable has_camera : bool.

Ltac route H :=
  destruct H as (Hversion & Hmethod & Hnotification & Hparams & Hobject & Hid);
  unfold ParseMessage; cbv zeta;
  rewrite Hversion, Hmethod; cbn [is_null cJSON_IsString valuestring negb orb];
  rewrite (String.eqb_refl "2.0"); cbn [negb];
  rewrite Hnotification, Hparams, Hid;
  cbn [is_null cJSON_IsNumber valueint negb orb];
  replace (negb (is_null _) && negb (cJSON_IsObject _)) with false
    by (destruct Hobject as [-> | ->]; cbn [is_null negb andb];
        [reflexivity | now rewrite andb_false_r]).

Lemma find_if_spec {A : Type} (pred : A -> bool) :
  forall (l : list A),
    match find_if pred l with
    | Some (i, x) =>
        nth_error l i = Some x /\ pred x = true
        /\ forall j y, (j < i)%nat -> nth_error l j = Some y -> pred y = false
    | None => forall y, In y l -> pred y = false
    end.
Proof.
  induction l as [|x l IH]; cbn [find_if].
  - intros y [].
  - destruct (pred x) eqn:Px.
    + split; [reflexivity | split; [exact Px | intros j y Hj; lia]].
    + destruct (find_if pred l) as [[i z]|].
      * destruct IH as (Hnth & Hz & Hbefore). split; [exact Hnth | split; [exact Hz|]].
        intros [|j] y Hj; cbn [nth_error].
        -- intros [= <-]. exact Px.
        -- apply Hbefore. lia.
      * intros y [<- | Hy]; auto.
Qed.

Lemma find_if_none (tool_name : string) (tools : list McpTool.t) :
  has_tool tool_name tools = false ->
  find_if (fun t => McpTool.name t == tool_name) tools = None.
Proof.
  unfold has_tool. induction tools as [|tool rest IH]; cbn [existsb find_if].
  - reflexivity.
  - intros H. apply orb_false_iff in H as [-> Hrest]. now rewrite IH.
Qed.

(** X12.  A call of a name that no registered tool has is answered with
    the error for an unknown tool, whatever the arguments are, and nothing
    is scheduled. *)
Theorem unknown_tool_rejected (tools : list McpTool.t) (id : Z)
    (tool_name : string) (tool_arguments : option cJSON) :
  has_tool tool_name tools = false ->
  DoToolCall range_error tools id tool_name tool_arguments
  = ReplyError id ("Unknown tool: " +++ tool_name).
Proof.
  intros H. unfold DoToolCall. now rewrite (find_if_none _ _ H).
Qed.

(** X13.  [DoToolCall] has exactly one effect: it sends one message or it
    schedules one call, never both.  A scheduled call is for the first
    tool of the registry that has the name asked for, and its arguments
    are as many as the properties of that tool. *)
Theorem DoToolCall_one_effect (tools : list McpTool.t) (id : Z)
    (tool_name : string) (tool_arguments : option cJSON) :
  (exists payload,
      DoToolCall range_error tools id tool_name tool_arguments
      = [SendMcpMessage payload])
  \/ (exists tool_iter tool arguments,
        DoToolCall range_error tools id tool_name tool_arguments
        = [Schedule id tool_iter arguments]
        /\ nth_error tools tool_iter = Some tool
        /\ McpTool.name tool = tool_name
        /\ (forall j other, (j < tool_iter)%nat -> nth_error tools j = Some other ->
                            McpTool.name other <> tool_name)
        /\ List.length arguments = List.length (McpTool.properties tool)).
Proof.
  unfold DoToolCall.
  pose proof (find_if_spec (fun t => McpTool.name t == tool_name) tools) as Hfind.
  destruct (find_if (fun t => McpTool.name t == tool_name) tools) as [[i tool]|].
  - destruct Hfind as (Hnth & Hname & Hfirst).
    destruct (bind_arguments range_error tool_arguments (McpTool.properties tool))
      as [[arguments|n]|what] eqn:E.
    + right. exists i, tool, arguments. split; [reflexivity|].
      split; [exact Hnth|]. split; [now apply String.eqb_eq|]. split.
      * intros j other Hj Hother. apply String.eqb_neq. eapply Hfirst; eauto.
      * exact (bind_arguments_length _ _ _ E).
    + left. eexists. reflexivity.
    + left. eexists. reflexivity.
  - left. eexists. reflexivity.
Qed.

(** Without an arguments object nothing is bound. *)
Lemma bind_arguments_no_object (tool_arguments : option cJSON) :
  cJSON_IsObject tool_arguments = false ->
  forall arguments,
    bind_arguments range_error tool_arguments arguments
    = match find (fun p => negb (Property.has_default_value p)) arguments with
      | Some p => Ok (MissingArgument (Property.name p))
      | None => Ok (Bound arguments)
      end.
Proof.
  intros Hobject. induction arguments as [|p rest IH]; [reflexivity|].
  rewrite bind_arguments_unsupplied
    by (unfold supplied; now rewrite Hobject).
  cbn [find]. destruct (Property.has_default_value p); cbn [negb]; [|reflexivity].
  rewrite IH.
  now destruct (find (fun p => negb (Property.has_default_value p)) rest).
Qed.

(** X14.  A call without an arguments object (absent, or not an object)
    binds nothing: it is scheduled with the schema of the tool as it is
    when every property has a default, and otherwise answered with the
    error that names the first property without a default. *)
Theorem call_without_arguments (tools : list McpTool.t) (id : Z)
    (tool_name : string) (tool_arguments : option cJSON)
    (tool_iter : nat) (tool : McpTool.t) :
  find_if (fun t => McpTool.name t == tool_name) tools = Some (tool_iter, tool) ->
  cJSON_IsObject tool_arguments = false ->
  DoToolCall range_error tools id tool_name tool_arguments
  = match find (fun p => negb (Property.has_default_value p))
               (McpTool.properties tool) with
    | Some p => ReplyError id ("Missing valid argument: " +++ Property.name p)
    | None => [Schedule id tool_iter (McpTool.properties tool)]
    end.
Proof.
  intros Hfind Hobject. unfold DoToolCall.
  rewrite Hfind, (bind_arguments_no_object _ Hobject).
  now destruct (find (fun p => negb (Property.has_default_value p))
                     (McpTool.properties tool)).
Qed.

(** X15.  A supplied integer is checked against the declared range once
    the properties before it are bound: outside the range, the call is
    answered with the text of the exception and nothing is scheduled;
    inside it, with the properties after it bound too, the call is
    scheduled with the integer bound to the property.  ([set_value] as the
    specification describes it.) *)
Theorem integer_range_enforced (tools : list McpTool.t) (id : Z)
    (tool_name : string) (tool_arguments : option cJSON)
    (tool_iter : nat) (tool : McpTool.t)
    (before : PropertyList) (p : Property.t) (after : PropertyList)
    (b : PropertyList) (lo hi n : Z) :
  find_if (fun t => McpTool.name t == tool_name) tools = Some (tool_iter, tool) ->
  McpTool.properties tool = before ++ p :: after ->
  Property.type p = kPropertyTypeInteger ->
  Property.range p = Some (lo, hi) ->
  cJSON_IsObject tool_arguments = true ->
  cJSON_GetObjectItem tool_arguments (Property.name p) = Some (cJSON_Number n) ->
  bind_arguments range_error tool_arguments before = Ok (Bound b) ->
  (n < lo \/ hi < n ->
   DoToolCall range_error tools id tool_name tool_arguments
   = ReplyError id (range_error p n))
  /\ (lo <= n <= hi ->
      forall a,
        bind_arguments range_error tool_arguments after = Ok (Bound a) ->
        DoToolCall range_error tools id tool_name tool_arguments
        = [Schedule id tool_iter
             (b ++ Property.with_value (value_int n) p :: a)]).
Proof.
  intros Hfind Hprops Htype Hrange Hobject Hvalue Hbefore.
  assert (Hbind : bind_argument range_error tool_arguments p
                  = (a <- set_value range_error (value_int n) p ;; Ok (a, true))).
  { unfold bind_argument. rewrite Hobject, Hvalue, Htype. reflexivity. }
  unfold DoToolCall. rewrite Hfind, Hprops, bind_arguments_app, Hbefore.
  cbn [bind bind_arguments]. rewrite Hbind. unfold set_value. rewrite Hrange.
  split.
  - intros Hout.
    replace ((n <? lo) || (hi <? n)) with true; [reflexivity|].
    symmetry. apply orb_true_iff.
    destruct Hout; [left; now apply Z.ltb_lt | right; now apply Z.ltb_lt].
  - intros Hin a Hafter.
    replace ((n <? lo) || (hi <? n)) with false.
    + cbn [bind andb negb]. rewrite andb_false_r, Hafter. reflexivity.
    + symmetry. apply orb_false_iff. split; apply Z.ltb_ge; lia.
Qed.

Lemma GetToolsList_one_message (tools : list McpTool.t) (id : Z)
    (cursor : string) (flag : bool) :
  exists payload, GetToolsList to_json tools id cursor flag = [SendMcpMessage payload].
Proof.
  unfold GetToolsList.
  destruct (tools_loop to_json cursor flag tools (empty cursor)
              ("{" +++ quoted "tools" +++ ":[")) as [json next].
  match goal with |- context [if ?c then ReplyError _ _ else _] => destruct c end;
    eexists; reflexivity.
Qed.

Lemma ParseCapabilities_effects (capabilities : option cJSON) :
  ParseCapabilities has_camera capabilities = []
  \/ (has_camera = true
      /\ exists url token,
           ParseCapabilities has_camera capabilities = [SetExplainUrl url token]).
Proof.
  unfold ParseCapabilities.
  destruct (cJSON_IsObject (cJSON_GetObjectItem capabilities "vision")); [|now left].
  destruct (cJSON_IsString _); [|now left].
  destruct has_camera; [right | now left].
  split; [reflexivity | eexists; eexists; reflexivity].
Qed.

(** X16.  One message in, at most one reply out.  Whatever the message,
    its effects are at most one configuration of the camera, which needs
    a camera, followed by at most one reply: nothing, one message sent, or
    one call scheduled. *)
Theorem at_most_one_reply (tools : list McpTool.t) (json : cJSON) :
  exists config out,
    ParseMessage to_json range_error BOARD_NAME app_version has_camera tools json
    = config ++ out
    /\ (config = []
        \/ (has_camera = true /\ exists url token, config = [SetExplainUrl url token]))
    /\ (out = []
        \/ (exists payload, out = [SendMcpMessage payload])
        \/ (exists id tool_iter arguments, out = [Schedule id tool_iter arguments])).
Proof.
  assert (Hnone : exists config out : list Effect,
             [] = config ++ out
             /\ (config = []
                 \/ (has_camera = true
                     /\ exists url token, config = [SetExplainUrl url token]))
             /\ (out = []
                 \/ (exists payload, out = [SendMcpMessage payload])
                 \/ (exists id tool_iter arguments,
                        out = [Schedule id tool_iter arguments])))
    by (exists [], []; auto).
  assert (Hsend : forall payload, exists config out : list Effect,
             [SendMcpMessage payload] = config ++ out
             /\ (config = []
                 \/ (has_camera = true
                     /\ exists url token, config = [SetExplainUrl url token]))
             /\ (out = []
                 \/ (exists payload, out = [SendMcpMessage payload])
                 \/ (exists id tool_iter arguments,
                        out = [Schedule id tool_iter arguments])))
    by (intros payload; exists [], [SendMcpMessage payload];
        split; [reflexivity | split; [now left | right; left; eexists; reflexivity]]).
  unfold ParseMessage. cbv zeta.
  repeat match goal with
         | |- context [if ?c then [] else _] => destruct c; [exact Hnone|]
         end.
  destruct (valuestring (cJSON_GetObjectItem (Some json) "method") == "initialize").
  - match goal with
    | |- context [?c ++ ReplyResult ?i ?r] =>
        exists c, (ReplyResult i r); split; [reflexivity|]; split
    end.
    + destruct (cJSON_IsObject (cJSON_GetObjectItem (Some json) "params")); [|now left].
      destruct (cJSON_IsObject _); [|now left].
      apply ParseCapabilities_effects.
    + right; left. eexists. reflexivity.
  - destruct (valuestring (cJSON_GetObjectItem (Some json) "method") == "tools/list").
    + match goal with
      | |- context [GetToolsList _ ?t ?i ?c ?f] =>
          destruct (GetToolsList_one_message t i c f) as [payload ->]
      end.
      apply Hsend.
    + destruct (valuestring (cJSON_GetObjectItem (Some json) "method") == "tools/call");
        [|apply Hsend].
      repeat match goal with
             | |- context [if ?c then ReplyError _ _ else _] => destruct c; [apply Hsend|]
             end.
      match goal with
      | |- context [DoToolCall _ ?t ?i ?n ?a] =>
          destruct (DoToolCall_one_effect t i n a)
            as [[payload ->] | (it & tool & arguments & -> & _)]
      end.
      * apply Hsend.
      * eexists []; eexists.
        split; [reflexivity | split; [now left | right; right]].
        eexists; eexists; eexists; reflexivity.
Qed.

(** X17.  A message of version 2.0 whose method begins with
    "notifications" has no effect, whatever its params and id are: no
    reply, also no error reply for params or an id that are missing or
    malformed. *)
Theorem notification_never_answered (tools : list McpTool.t) (json : cJSON)
    (method_str : string) :
  cJSON_GetObjectItem (Some json) "jsonrpc" = Some (cJSON_String "2.0") ->
  cJSON_GetObjectItem (Some json) "method" = Some (cJSON_String method_str) ->
  String.prefix "notifications" method_str = true ->
  ParseMessage to_json range_error BOARD_NAME app_version has_camera tools json = [].
Proof.
  intros Hversion Hmethod Hprefix. unfold ParseMessage. cbv zeta.
  rewrite Hversion, Hmethod. cbn [is_null cJSON_IsString valuestring negb orb].
  rewrite (String.eqb_refl "2.0"). cbn [negb]. now rewrite Hprefix.
Qed.

(** X18.  A request for a method other than initialize, tools/list and
    tools/call is answered with the error that names the method. *)
Theorem unknown_method_rejected (tools : list McpTool.t) (json : cJSON)
    (method_str : string) (params : option cJSON) (id_int : Z) :
  request json method_str params id_int ->
  method_str <> "initialize" ->
  method_str <> "tools/list" ->
  method_str <> "tools/call" ->
  ParseMessage to_json range_error BOARD_NAME app_version has_camera tools json
  = ReplyError id_int ("Method not implemented: " +++ method_str).
Proof.
  intros Hrequest H1 H2 H3. route Hrequest.
  apply String.eqb_neq in H1, H2, H3. now rewrite H1, H2, H3.
Qed.

(** X19.  The shape of a tools/call request.  Without params the reply is
    the error "Missing params"; with params whose name is not a string,
    "Missing name"; with arguments that are present and not an object,
    "Invalid arguments"; in each of these cases nothing is scheduled.
    Otherwise the request is handed to [DoToolCall] with the name and the
    arguments, which may be absent. *)
Theorem tools_call_shape (tools : list McpTool.t) (json : cJSON)
    (params : option cJSON) (id_int : Z) :
  request json "tools/call" params id_int ->
  let tool_name := cJSON_GetObjectItem params "name" in
  let tool_arguments := cJSON_GetObjectItem params "arguments" in
  ParseMessage to_json range_error BOARD_NAME app_version has_camera tools json
  = if is_null params then ReplyError id_int "Missing params"
    else if negb (cJSON_IsString tool_name) then ReplyError id_int "Missing name"
    else if negb (is_null tool_arguments) && negb (cJSON_IsObject tool_arguments)
    then ReplyError id_int "Invalid arguments"
    else DoToolCall range_error tools id_int (valuestring tool_name) tool_arguments.
Proof.
  intros Hrequest tool_name tool_arguments.
  pose proof Hrequest as (_ & _ & _ & _ & Hshape & _).
  route Hrequest.
  replace ("tools/call" == "initialize") with false by reflexivity.
  replace ("tools/call" == "tools/list") with false by reflexivity.
  rewrite (String.eqb_refl "tools/call").
  destruct Hshape as [-> | Hobj]; [reflexivity|].
  rewrite Hobj. destruct params; [reflexivity | discriminate].
Qed.

(** X20.  A tools/list request lists user-only tools only when its params
    hold the JSON value true under withUserTools: with any other value
    there (a number, a string, false) or none, the reply is the one of the
    listing without user-only tools, from the cursor given as a string or
    else from the start. *)
Theorem tools_list_needs_true_flag (tools : list McpTool.t) (json : cJSON)
    (params : option cJSON) (id_int : Z) :
  request json "tools/list" params id_int ->
  cJSON_GetObjectItem params "withUserTools" <> Some cJSON_True ->
  Forall (closes_object to_json) tools ->
  let cursor := cJSON_GetObjectItem params "cursor" in
  let cursor_str := if cJSON_IsString cursor then valuestring cursor else EmptyString in
  ParseMessage to_json range_error BOARD_NAME app_version has_camera tools json
  = render to_json id_int (list_reply to_json tools cursor_str false)
  /\ forall listed next,
       list_reply to_json tools cursor_str false = ListedTools listed next ->
       forall tool, In tool listed -> McpTool.user_only tool = false.
Proof.
  intros Hrequest Hflag Hjson cursor cursor_str.
  pose proof Hrequest as (_ & _ & _ & _ & Hshape & _).
  split.
  - route Hrequest.
    replace ("tools/list" == "initialize") with false by reflexivity.
    rewrite (String.eqb_refl "tools/list").
    rewrite <- GetToolsList_render by exact Hjson.
    assert (Ecursor : (if negb (is_null params)
                          && cJSON_IsString (cJSON_GetObjectItem params "cursor")
                       then valuestring (cJSON_GetObjectItem params "cursor")
                       else EmptyString) = cursor_str).
    { unfold cursor_str, cursor. destruct params; reflexivity. }
    assert (Eflag : (if negb (is_null params)
                        && cJSON_IsBool (cJSON_GetObjectItem params "withUserTools")
                     then valueint (cJSON_GetObjectItem params "withUserTools") =? 1
                     else false) = false).
    { destruct params; [|reflexivity]. cbn [is_null negb andb].
      destruct (cJSON_GetObjectItem (Some c) "withUserTools") as [[]|];
        try reflexivity. congruence. }
    now rewrite Ecursor, Eflag.
  - intros listed next E tool Hin.
    apply list_reply_listed in E. unfold page in E.
    apply (take_fit_incl _ _ _ E) in Hin.
    apply filter_In in Hin as [_ Hvis]. unfold visible in Hvis.
    cbn [orb] in Hvis. now apply negb_true_iff in Hvis.
Qed.

(** X21.  An initialize request is always answered, with the same result
    whatever the registry and the params hold: protocol version, the
    empty tools capability, the board name and the build version.  Before
    the reply the camera is configured at most once, and only on a board
    with a camera. *)
Theorem initialize_answered (tools : list McpTool.t) (json : cJSON)
    (params : option cJSON) (id_int : Z) :
  request json "initialize" params id_int ->
  exists config,
    ParseMessage to_json range_error BOARD_NAME app_version has_camera tools json
    = config
      ++ ReplyResult id_int
           ("{" +++ quoted "protocolVersion" +++ ":" +++ quoted "2024-11-05" +++ ","
            +++ quoted "capabilities" +++ ":{" +++ quoted "tools" +++ ":{}},"
            +++ quoted "serverInfo" +++ ":{" +++ quoted "name" +++ ":" +++ quoted BOARD_NAME
            +++ "," +++ quoted "version" +++ ":" +++ dquote +++ app_version +++ dquote
            +++ "}}")
    /\ (config = []
        \/ (has_camera = true
            /\ exists url token, config = [SetExplainUrl url token])).
Proof.
  intros Hrequest. route Hrequest.
  rewrite (String.eqb_refl "initialize").
  eexists. split; [reflexivity|].
  destruct (cJSON_IsObject params); [|now left].
  destruct (cJSON_IsObject _); [|now left].
  apply ParseCapabilities_effects.
Qed.

End Routes.

(** ** More on the registry *)

Lemma find_if_app {A : Type} (pred : A -> bool) (l l' : list A) :
  find_if pred (l ++ l')
  = match find_if pred l with
    | Some found => Some found
    | None => match find_if pred l' with
              | Some (i, x) => Some ((List.length l + i)%nat, x)
              | None => None
              end
    end.
Proof.
  induction l as [|y l IH]; cbn [app find_if List.length].
  - now destruct (find_if pred l') as [[i x]|].
  - destruct (pred y); [reflexivity|]. rewrite IH.
    destruct (find_if pred l) as [[i x]|]; [reflexivity|].
    now destruct (find_if pred l') as [[i x]|].
Qed.

(** X22.  Registration and lookup.  After [AddTool] the name of the tool
    is registered, and adding the same tool again changes nothing; a tool
    with a new name is found under it at the last position; and the
    lookup of every other name is as before. *)
Theorem AddTool_then_lookup (tools : list McpTool.t) (tool : McpTool.t) :
  has_tool (McpTool.name tool) (AddTool tool tools) = true
  /\ AddTool tool (AddTool tool tools) = AddTool tool tools
  /\ (has_tool (McpTool.name tool) tools = false ->
      find_if (fun t => McpTool.name t == McpTool.name tool) (AddTool tool tools)
      = Some (List.length tools, tool))
  /\ (forall other_name,
        other_name <> McpTool.name tool ->
        find_if (fun t => McpTool.name t == other_name) (AddTool tool tools)
        = find_if (fun t => McpTool.name t == other_name) tools).
Proof.
  assert (Hhas : has_tool (McpTool.name tool) (AddTool tool tools) = true).
  { unfold AddTool. destruct (has_tool (McpTool.name tool) tools) eqn:E; [exact E|].
    apply has_tool_true. rewrite map_app. apply in_or_app. right. now left. }
  split; [exact Hhas | split; [|split]].
  - unfold AddTool at 1. now rewrite Hhas.
  - intros Hnew. unfold AddTool. rewrite Hnew, find_if_app.
    rewrite (find_if_none _ _ Hnew). cbn [find_if].
    rewrite String.eqb_refl. now rewrite Nat.add_0_r.
  - intros other_name Hother. unfold AddTool.
    destruct (has_tool (McpTool.name tool) tools); [reflexivity|].
    rewrite find_if_app. cbn [find_if].
    replace (McpTool.name tool == other_name) with false
      by (symmetry; apply String.eqb_neq; congruence).
    now destruct (find_if (fun t => McpTool.name t == other_name) tools) as [[i x]|].
Qed.

(** What a batch of [AddTool] calls leaves in the registry. *)
Lemma batch_registered (batch : list McpTool.t) :
  forall registry,
    exists added,
      fold_left (fun registry tool => AddTool tool registry) batch registry
      = registry ++ added
      /\ incl added batch
      /\ forall n, In n (map McpTool.name (registry ++ added))
                   <-> In n (map McpTool.name registry)
                       \/ In n (map McpTool.name batch).
Proof.
  induction batch as [|tool rest IH]; intros registry; cbn [fold_left].
  - exists []. rewrite app_nil_r. split; [reflexivity | split; [apply incl_refl|]].
    intros n. cbn. tauto.
  - destruct (IH (AddTool tool registry)) as (added & E & Hincl & Hnames).
    unfold AddTool in *.
    destruct (has_tool (McpTool.name tool) registry) eqn:Hhas.
    + exists added. split; [exact E | split; [now apply incl_tl|]].
      intros n. rewrite Hnames. cbn [map In]. apply has_tool_true in Hhas.
      split; [tauto|]. intros [H | [<- | H]]; auto.
    + exists (tool :: added). rewrite <- app_assoc in E, Hnames. cbn [app] in E, Hnames.
      split; [exact E | split].
      * intros x [<- | Hx]; [now left | right; now apply Hincl].
      * intros n. rewrite Hnames, map_app. cbn [map In]. rewrite in_app_iff.
        cbn [In]. tauto.
Qed.

(** X23.  [AddCommonTools] puts the common tools first: the registry
    afterwards is a front of tools from the batch, with pairwise distinct
    names that are exactly the names of the batch, followed by the tools
    registered before, unchanged and in their order.  A name of the batch
    therefore resolves to a tool of the batch, also when a tool registered
    before has the same name; and the names of the whole registry are
    pairwise distinct when those registered before are and none of them is
    a name of the batch. *)
Theorem AddCommonTools_puts_common_first (common tools : list McpTool.t) :
  exists front,
    AddCommonTools common tools = front ++ tools
    /\ incl front common
    /\ NoDup (map McpTool.name front)
    /\ (forall n, In n (map McpTool.name front) <-> In n (map McpTool.name common))
    /\ (forall n, In n (map McpTool.name common) ->
                  exists i tool,
                    find_if (fun t => McpTool.name t == n) (AddCommonTools common tools)
                    = Some (i, tool)
                    /\ (i < List.length front)%nat /\ In tool common)
    /\ (NoDup (map McpTool.name tools) ->
        (forall tool, In tool tools -> ~ In (McpTool.name tool) (map McpTool.name common)) ->
        NoDup (map McpTool.name (AddCommonTools common tools))).
Proof.
  unfold AddCommonTools.
  destruct (batch_registered common []) as (front & E & Hincl & Hnames).
  cbn [app] in E, Hnames. rewrite E.
  assert (Hdistinct : NoDup (map McpTool.name front))
    by (rewrite <- E; apply registered_names_distinct).
  assert (Hfront : forall n, In n (map McpTool.name front)
                             <-> In n (map McpTool.name common))
    by (intros n; rewrite Hnames; cbn; tauto).
  exists front. split; [reflexivity|]. split; [exact Hincl|].
  split; [exact Hdistinct|]. split; [exact Hfront|]. split.
  - intros n Hn. apply Hfront, has_tool_true in Hn.
    destruct (find_if_has_tool _ _ Hn) as (i & tool & Hfind & _).
    pose proof (find_if_spec (fun t => McpTool.name t == n) front) as Hspec.
    rewrite Hfind in Hspec. destruct Hspec as (Hnth & _ & _).
    exists i, tool. rewrite find_if_app, Hfind. split; [reflexivity|]. split.
    + apply nth_error_Some. congruence.
    + apply Hincl. eapply nth_error_In; eauto.
  - intros Htools Hapart. rewrite map_app. apply NoDup_app; auto.
    intros n Hn Hn'. apply Hfront in Hn.
    apply in_map_iff in Hn' as (tool & <- & Htool). exact (Hapart tool Htool Hn).
Qed.

Lemma AddTool_then_lookup_witness :
  find_if (fun t => McpTool.name t == McpTool.name gamma) (AddTool gamma [alpha; beta])
  = Some (2%nat, gamma)
  /\ find_if (fun t => McpTool.name t == "beta") (AddTool gamma [alpha; beta])
     = find_if (fun t => McpTool.name t == "beta") [alpha; beta].
Proof.
  destruct (AddTool_then_lookup [alpha; beta] gamma) as (_ & _ & H1 & H2).
  split.
  - apply H1. reflexivity.
  - apply H2. discriminate.
Defined.

Lemma AddCommonTools_puts_common_first_witness :
  let board_tool := sample_tool "alpha" "a tool of the board" [] false in
  exists front,
    AddCommonTools [alpha; beta; alpha] [board_tool; gamma] = front ++ [board_tool; gamma]
    /\ (exists i tool,
          find_if (fun t => McpTool.name t == "alpha")
                  (AddCommonTools [alpha; beta; alpha] [board_tool; gamma])
          = Some (i, tool)
          /\ (i < List.length front)%nat /\ In tool [alpha; beta; alpha])
    /\ NoDup (map McpTool.name (AddCommonTools [alpha; beta] [gamma])).
Proof.
  intros board_tool.
  destruct (AddCommonTools_puts_common_first [alpha; beta; alpha] [board_tool; gamma])
    as (front & E & _ & _ & _ & Hfind & _).
  destruct (AddCommonTools_puts_common_first [alpha; beta] [gamma])
    as (_ & _ & _ & _ & _ & _ & Hdistinct).
  exists front. split; [exact E | split].
  - apply Hfind. cbn. now left.
  - apply Hdistinct.
    + names_distinct.
    + intros tool [<- | []]. cbn. intuition discriminate.
Defined.

(** ** The tools the server registers itself *)

(** What [AddCommonTools] and [AddUserOnlyTools] ask the board and the
    build: the two configuration macros, whether the board has a
    backlight, a display with a theme, a camera, a display that is an
    [LvglDisplay], and whether the assets partition is valid. *)
Record Board : Set := {
  HAVE_LVGL : bool;
  CONFIG_LV_USE_SNAPSHOT : bool;
  backlight : bool;
  display_theme : bool;
  camera : bool;
  lvgl_display : bool;
  assets_partition_valid : bool
}.

(** Modelled from the spec: the constructors of [Property] are declared in
    [mcp_server.h], which is not among the sources.  After the name and
    the type comes nothing (a required property), a default, a numeric
    range, or a default and a numeric range. *)
Definition Property_required (name : string) (type : PropertyType) : Property.t :=
  Property.make name type None None None.
Definition Property_default (name : string) (type : PropertyType)
    (default : PropertyValue) : Property.t :=
  Property.make name type (Some default) None None.
Definition Property_range (name : string) (type : PropertyType) (lo hi : Z)
  : Property.t :=
  Property.make name type None (Some (lo, hi)) None.
Definition Property_default_range (name : string) (type : PropertyType)
    (default lo hi : Z) : Property.t :=
  Property.make name type (Some (value_int default)) (Some (lo, hi)) None.

(** The line feed of the descriptions. *)
Definition LF : string := String "010"%char EmptyString.

(** A text-level check of pairwise distinct names. *)
Fixpoint distinct (names : list string) : bool :=
  match names with
  | [] => true
  | n :: rest => negb (existsb (String.eqb n) rest) && distinct rest
  end.

Section BuiltIn.

(** The handlers reach into the board and the application; the handler of
    the tool named [n] is [handler n]. *)
Variable handler : string -> PropertyList -> result ReturnValue.

(** The tool an [AddTool(name, description, properties, callback)] call
    creates. *)
Definition new_tool (name description : string) (properties : PropertyList)
  : McpTool.t :=
  McpTool.make name description properties (handler name) false.

(** The tools [AddCommonTools] passes to [AddTool], in the order of the
    calls. *)
Definition common_tools (board : Board) : list McpTool.t :=
  [ new_tool "self.get_device_status"
      ("Provides the real-time information of the device, including the current status of the audio speaker, screen, battery, network, etc." +++ LF
       +++ "Use this tool for: " +++ LF
       +++ "1. Answering questions about current condition (e.g. what is the current volume of the audio speaker?)" +++ LF
       +++ "2. As the first step to control the device (e.g. turn up / down the volume of the audio speaker, etc.)")
      [];
    new_tool "self.audio_speaker.set_volume"
      "Set the volume of the audio speaker. If the current volume is unknown, you must call `self.get_device_status` tool first and then call this tool."
      [Property_range "volume" kPropertyTypeInteger 0 100];
    new_tool "self.led.turn_on"
      "Turn on the onboard LED."
      [] ]
  ++ (if backlight board then
        [ new_tool "self.screen.set_brightness"
            "Set the brightness of the screen."
            [Property_range "brightness" kPropertyTypeInteger 0 100] ]
      else [])
  ++ (if HAVE_LVGL board then
        (if display_theme board then
           [ new_tool "self.screen.set_theme"
               "Set the theme of the screen. The theme can be `light` or `dark`."
               [Property_required "theme" kPropertyTypeString] ]
         else [])
        ++ (if camera board then
              [ new_tool "self.camera.take_photo"
                  ("Always remember you have a camera. If the user asks you to see something, use this tool to take a photo and then explain it." +++ LF
                   +++ "Args:" +++ LF
                   +++ "  `question`: The question that you want to ask about the photo." +++ LF
                   +++ "Return:" +++ LF
                   +++ "  A JSON object that provides the photo information.")
                  [Property_required "question" kPropertyTypeString] ]
            else [])
      else []).

(** The tools [AddUserOnlyTools] passes to [AddUserOnlyTool], in the order
    of the calls. *)
Definition user_only_tools (board : Board) : list McpTool.t :=
  [ new_tool "self.get_system_info" "Get the system information" [];
    new_tool "self.reboot" "Reboot the system" [];
    new_tool "self.upgrade_firmware"
      "Upgrade firmware from a specific URL. This will download and install the firmware, then reboot the device."
      [Property_default "url" kPropertyTypeString
         (value_string "The URL of the firmware binary file to download and install")] ]
  ++ (if HAVE_LVGL board && lvgl_display board then
        [ new_tool "self.screen.get_info"
            "Information about the screen, including width, height, etc."
            [] ]
        ++ (if CONFIG_LV_USE_SNAPSHOT board then
              [ new_tool "self.screen.snapshot"
                  "Snapshot the screen and upload it to a specific URL"
                  [Property_required "url" kPropertyTypeString;
                   Property_default_range "quality" kPropertyTypeInteger 80 1 100];
                new_tool "self.screen.preview_image"
                  "Preview an image on the screen"
                  [Property_required "url" kPropertyTypeString] ]
            else [])
      else [])
  ++ (if assets_partition_valid board then
        [ new_tool "self.assets.set_download_url"
            "Set the download url for the assets"
            [Property_required "url" kPropertyTypeString] ]
      else []).

(** [McpServer::AddUserOnlyTools]. *)
Definition AddUserOnlyTools (board : Board) (tools_ : list McpTool.t)
  : list McpTool.t :=
  fold_left (fun registry tool => AddUserOnlyTool tool registry)
            (user_only_tools board) tools_.

Lemma distinct_NoDup (names : list string) : distinct names = true -> NoDup names.
Proof.
  induction names as [|n rest IH]; cbn [distinct]; intros H; constructor.
  - apply andb_true_iff in H as [H _]. apply negb_true_iff in H.
    intros Hin. apply not_true_iff_false in H. apply H.
    apply existsb_exists. exists n. split; [exact Hin | apply String.eqb_refl].
  - apply andb_true_iff in H as [_ H]. auto.
Qed.

Lemma builtin_names_distinct (board : Board) :
  NoDup (map McpTool.name (common_tools board ++ user_only_tools board)).
Proof.
  apply distinct_NoDup.
  destruct board as [[] [] [] [] [] [] []]; vm_compute; reflexivity.
Qed.

(** A batch none of whose names is registered, and whose names are
    pairwise distinct, is appended as it is. *)
Lemma batch_appended (batch : list McpTool.t) :
  forall registry,
    NoDup (map McpTool.name (registry ++ batch)) ->
    fold_left (fun registry tool => AddTool tool registry) batch registry
    = registry ++ batch.
Proof.
  induction batch as [|tool rest IH]; intros registry Hnames; cbn [fold_left].
  - now rewrite app_nil_r.
  - assert (Hnew : has_tool (McpTool.name tool) registry = false).
    { apply not_true_iff_false. intros H. apply has_tool_true in H.
      exact (names_before _ _ _ Hnames H). }
    unfold AddTool at 2. rewrite Hnew.
    rewrite IH; rewrite <- app_assoc; [reflexivity | exact Hnames].
Qed.

Lemma user_only_batch (batch tools : list McpTool.t) :
  fold_left (fun registry tool => AddUserOnlyTool tool registry) batch tools
  = fold_left (fun registry tool => AddTool tool registry)
              (map (McpTool.set_user_only true) batch) tools.
Proof.
  revert tools. induction batch as [|tool rest IH]; intros tools; cbn; auto.
Qed.

Lemma set_user_only_names (b : bool) (tools : list McpTool.t) :
  map McpTool.name (map (McpTool.set_user_only b) tools) = map McpTool.name tools.
Proof. rewrite map_map. reflexivity. Qed.

Lemma NoDup_app_apart {A : Type} (l1 l2 : list A) (a : A) :
  NoDup (l1 ++ l2) -> In a l1 -> ~ In a l2.
Proof.
  intros H H1 H2. apply in_split in H2 as (x & y & ->).
  rewrite app_assoc in H. apply NoDup_remove_2 in H.
  apply H. apply in_or_app. left. apply in_or_app. now left.
Qed.

Lemma filter_every {A : Type} (f : A -> bool) (l : list A) :
  (forall x, In x l -> f x = true) -> filter f l = l.
Proof.
  induction l as [|x l IH]; cbn; intros H; [reflexivity|].
  rewrite (H x) by now left. f_equal. apply IH. intros; apply H; now right.
Qed.

Lemma filter_none {A : Type} (f : A -> bool) (l : list A) :
  (forall x, In x l -> f x = false) -> filter f l = [].
Proof.
  induction l as [|x l IH]; cbn; intros H; [reflexivity|].
  rewrite (H x) by now left. apply IH. intros; apply H; now right.
Qed.

(** X24.  The registry after [AddCommonTools] and [AddUserOnlyTools], on
    any board, when the tools registered before have pairwise distinct
    names that are not names of the server's own tools: it is the common
    tools, then the tools registered before, then the user-only tools with
    their flag set, nothing dropped; its names are pairwise distinct; and
    the tools a listing without the flag can show are the common tools
    followed by those of the tools registered before that are not
    user-only. *)
Theorem registry_after_startup (board : Board) (board_tools : list McpTool.t) :
  NoDup (map McpTool.name board_tools) ->
  (forall tool, In tool board_tools ->
     ~ In (McpTool.name tool)
          (map McpTool.name (common_tools board ++ user_only_tools board))) ->
  let registry :=
    AddUserOnlyTools board (AddCommonTools (common_tools board) board_tools) in
  registry
  = common_tools board ++ board_tools
    ++ map (McpTool.set_user_only true) (user_only_tools board)
  /\ NoDup (map McpTool.name registry)
  /\ filter (visible false) registry
     = common_tools board ++ filter (visible false) board_tools.
Proof.
  intros Hboard Hapart registry.
  pose proof (builtin_names_distinct board) as Hbuiltin.
  rewrite map_app in Hbuiltin.
  assert (Hcommon : NoDup (map McpTool.name (common_tools board)))
    by exact (NoDup_app_remove_r _ _ Hbuiltin).
  assert (Huser : NoDup (map McpTool.name (user_only_tools board)))
    by exact (NoDup_app_remove_l _ _ Hbuiltin).
  assert (Hnames : NoDup (map McpTool.name
                            (common_tools board ++ board_tools
                             ++ map (McpTool.set_user_only true) (user_only_tools board)))).
  { rewrite !map_app, set_user_only_names.
    apply NoDup_app; [exact Hcommon | | ].
    - apply NoDup_app; [exact Hboard | exact Huser |].
      intros n Hn Hn'. apply in_map_iff in Hn as (tool & <- & Htool).
      apply (Hapart tool Htool). rewrite map_app. apply in_or_app. now right.
    - intros n Hn Hn'. apply in_app_or in Hn' as [Hn' | Hn'].
      + apply in_map_iff in Hn' as (tool & <- & Htool).
        apply (Hapart tool Htool). rewrite map_app. apply in_or_app. now left.
      + exact (@NoDup_app_apart _ _ _ n Hbuiltin Hn Hn'). }
  assert (Eregistry : registry
                      = common_tools board ++ board_tools
                        ++ map (McpTool.set_user_only true) (user_only_tools board)).
  { unfold registry, AddUserOnlyTools, AddCommonTools.
    rewrite user_only_batch.
    rewrite (batch_appended (common_tools board) []) by exact Hcommon.
    cbn [app]. rewrite batch_appended; rewrite <- app_assoc; [reflexivity | exact Hnames]. }
  split; [exact Eregistry | split].
  - rewrite Eregistry. exact Hnames.
  - rewrite Eregistry, !filter_app.
    rewrite (filter_every (visible false) (common_tools board)).
    + rewrite (filter_none (visible false)
                 (map (McpTool.set_user_only true) (user_only_tools board))).
      * now rewrite app_nil_r.
      * intros x Hx. apply in_map_iff in Hx as (tool & <- & _). reflexivity.
    + intros x Hx. destruct board as [[] [] [] [] [] [] []]; cbn in Hx;
        repeat (destruct Hx as [<- | Hx]; [reflexivity|]); contradiction.
Qed.

Lemma NoDup_distinct (names : list string) : NoDup names -> distinct names = true.
Proof.
  induction 1 as [|n rest Hnot _ IH]; cbn [distinct]; [reflexivity|].
  rewrite IH, andb_true_r. apply negb_true_iff, not_true_iff_false.
  intros H. apply existsb_exists in H as (x & Hx & E).
  apply String.eqb_eq in E. subst x. exact (Hnot Hx).
Qed.

(** C8, where the code departs from it.  [AddTool] alone keeps the names
    of the registry pairwise distinct, but [AddCommonTools] does not: the
    tools it has set aside come back through a plain insertion, without
    the check of [AddTool].  On every board, after a board has registered
    a tool of its own under the name self.led.turn_on, [AddCommonTools]
    leaves a registry in which two tools have that name, and the name
    resolves to the common tool, registered second, not to the tool of
    the board, registered first. *)
Theorem AddCommonTools_repeats_registered_name (board : Board) :
  let board_led :=
    McpTool.make "self.led.turn_on" "The LED of this board" []
                 (handler "board") false in
  let before := AddTool board_led [] in
  let registry := AddCommonTools (common_tools board) before in
  NoDup (map McpTool.name before)
  /\ ~ NoDup (map McpTool.name registry)
  /\ List.length (filter (fun t => McpTool.name t == "self.led.turn_on") registry)
     = 2%nat
  /\ find_if (fun t => McpTool.name t == "self.led.turn_on") before
     = Some (0%nat, board_led)
  /\ find_if (fun t => McpTool.name t == "self.led.turn_on") registry
     = Some (2%nat, new_tool "self.led.turn_on" "Turn on the onboard LED." []).
Proof.
  intros board_led before registry.
  split; [ | split; [ | split; [ | split ] ] ].
  - apply distinct_NoDup. reflexivity.
  - intros H. apply NoDup_distinct in H.
    destruct board as [[] [] [] [] [] [] []]; vm_compute in H; discriminate H.
  - destruct board as [[] [] [] [] [] [] []]; reflexivity.
  - reflexivity.
  - destruct board as [[] [] [] [] [] [] []]; reflexivity.
Qed.

End BuiltIn.

Lemma registry_after_startup_witness :
  let handler := fun (_ : string) (_ : PropertyList) => Ok (return_bool true) in
  let board := Build_Board true true true false true true false in
  let lamp := sample_tool "board.lamp" "Switch the lamp" [] false in
  let registry :=
    AddUserOnlyTools handler board
      (AddCommonTools (common_tools handler board) [lamp; hidden]) in
  registry
  = common_tools handler board ++ [lamp; hidden]
    ++ map (McpTool.set_user_only true) (user_only_tools handler board)
  /\ NoDup (map McpTool.name registry)
  /\ filter (visible false) registry
     = common_tools handler board ++ filter (visible false) [lamp; hidden].
Proof.
  intros handler board lamp.
  apply (@registry_after_startup handler board [lamp; hidden]).
  - names_distinct.
  - intros tool [<- | [<- | []]]; vm_compute; intuition discriminate.
Defined.

(** ** Reading a reply back *)

(** A decimal text read as an integer, as the receiver of a reply reads
    the id. *)
Definition from_string (s : string) : option Z :=
  option_map Z.of_int (NilZero.int_of_string s).

Fixpoint has_char (c : ascii) (s : string) : bool :=
  match s with
  | EmptyString => false
  | String d rest => Ascii.eqb d c || has_char c rest
  end.

Lemma to_string_from_string (z : Z) : from_string (to_string z) = Some z.
Proof.
  unfold from_string, to_string. rewrite NilZero.isi.
  - cbn. now rewrite DecimalZ.of_to.
  - destruct z; cbn; try discriminate.
    intros [= H]. exact (DecimalPos.Unsigned.to_uint_nonnil _ H).
  - destruct z; cbn; try discriminate.
    intros [= H]. exact (DecimalPos.Unsigned.to_uint_nonnil _ H).
Qed.

Lemma digits_no_comma (d : Decimal.uint) :
  has_char "," (NilEmpty.string_of_uint d) = false.
Proof. induction d; cbn; auto. Qed.

Lemma to_string_no_comma (z : Z) : has_char "," (to_string z) = false.
Proof.
  unfold to_string, NilZero.string_of_int, NilZero.string_of_uint.
  destruct (Z.to_int z) as [d | d]; destruct d; cbn; try reflexivity;
    apply digits_no_comma.
Qed.

(** Two texts without a comma, each followed by a comma and a rest. *)
Lemma split_at_comma :
  forall s1 s2 x y,
    has_char "," s1 = false -> has_char "," s2 = false ->
    s1 +++ String "," x = s2 +++ String "," y ->
    s1 = s2 /\ x = y.
Proof.
  induction s1 as [|c s1 IH]; intros [|d s2] x y H1 H2; cbn in *.
  - intros [= ->]. auto.
  - intros [= <- _]. discriminate.
  - intros [= -> _]. discriminate.
  - intros [= -> E].
    apply orb_false_iff in H1 as [_ H1]. apply orb_false_iff in H2 as [_ H2].
    destruct (IH _ _ _ H1 H2 E) as [-> ->]. auto.
Qed.

Lemma append_inv_tail :
  forall a b c, a +++ c = b +++ c -> a = b.
Proof.
  induction a as [|x a IH]; intros [|y b] c; cbn; intros E.
  - reflexivity.
  - apply (f_equal len) in E. change (String y (b +++ c)) with (String y b +++ c) in E.
    rewrite len_append in E. unfold len in E. cbn [String.length] in E.
    rewrite Nat2Z.inj_succ in E. lia.
  - apply (f_equal len) in E. change (String x (a +++ c)) with (String x a +++ c) in E.
    rewrite len_append in E. unfold len in E. cbn [String.length] in E.
    rewrite Nat2Z.inj_succ in E. lia.
  - injection E as -> E. f_equal. exact (IH _ _ E).
Qed.

(** X25.  A reply can be read back.  The payloads [ReplyResult] and
    [ReplyError] build determine the id and the result or message they
    were built from, a result reply is never an error reply, also for
    another id, and the decimal text of an id reads back as that id. *)
Theorem reply_read_back :
  (forall id id' result result',
      ReplyResult id result = ReplyResult id' result' ->
      id = id' /\ result = result')
  /\ (forall id id' message message',
        ReplyError id message = ReplyError id' message' ->
        id = id' /\ message = message')
  /\ (forall id id' result message,
        ReplyResult id result <> ReplyError id' message)
  /\ (forall id, from_string (to_string id) = Some id).
Proof.
  assert (Hid : forall a b, to_string a = to_string b -> a = b).
  { intros a b E. apply (f_equal from_string) in E.
    rewrite !to_string_from_string in E. congruence. }
  split; [|split; [|split]].
  - intros id id' result result' E. unfold ReplyResult in E. injection E as E.
    repeat (apply append_inv_head in E).
    apply split_at_comma in E as [E1 E2]; try apply to_string_no_comma.
    split; [exact (Hid _ _ E1)|].
    repeat match type of E2 with String _ _ = String _ _ => injection E2 as E2 end.
    exact (append_inv_tail _ _ _ E2).
  - intros id id' message message' E. unfold ReplyError in E. injection E as E.
    repeat (apply append_inv_head in E).
    apply split_at_comma in E as [E1 E2]; try apply to_string_no_comma.
    split; [exact (Hid _ _ E1)|].
    repeat match type of E2 with String _ _ = String _ _ => injection E2 as E2 end.
    exact (append_inv_tail _ _ _ E2).
  - intros id id' result message E. unfold ReplyResult, ReplyError in E.
    injection E as E. repeat (apply append_inv_head in E).
    apply split_at_comma in E as [_ E2]; try apply to_string_no_comma.
    discriminate E2.
  - exact to_string_from_string.
Qed.

Lemma reply_read_back_witness :
  (7 = 7 /\ "{}" = "{}")
  /\ (-3 = -3 /\ "Missing name" = "Missing name").
Proof.
  destruct reply_read_back as (Hresult & Herror & _ & _).
  split.
  - apply Hresult. reflexivity.
  - apply Herror. reflexivity.
Defined.

(** ** Worked cases of the dispatcher *)

Lemma request_sample (method_str : string) (params : list (string * cJSON))
    (id_int : Z) :
  String.prefix "notifications" method_str = false ->
  request (make_request method_str (Some (cJSON_Object params)) id_int)
          method_str (Some (cJSON_Object params)) id_int.
Proof. intros H. repeat split; auto. Qed.

Lemma unknown_tool_rejected_witness :
  DoToolCall sample_range_error [alpha; upload] 3 "self.reboot" None
  = ReplyError 3 ("Unknown tool: " +++ "self.reboot").
Proof.
  apply (unknown_tool_rejected sample_range_error [alpha; upload] 3 "self.reboot" None).
  reflexivity.
Defined.

Lemma call_without_arguments_witness :
  DoToolCall sample_range_error [alpha; snapshot] 3 "snapshot" None
  = ReplyError 3 ("Missing valid argument: " +++ "url")
  /\ DoToolCall sample_range_error [alpha; snapshot] 3 "alpha" (Some (cJSON_Number 1))
     = [Schedule 3 0 []].
Proof.
  split.
  - apply (@call_without_arguments sample_range_error [alpha; snapshot] 3 "snapshot"
             None 1%nat snapshot); reflexivity.
  - apply (@call_without_arguments sample_range_error [alpha; snapshot] 3 "alpha"
             (Some (cJSON_Number 1)) 0%nat alpha); reflexivity.
Defined.

Lemma integer_range_enforced_witness :
  DoToolCall sample_range_error [alpha; upload] 3 "upload"
    (Some (cJSON_Object [("volume", cJSON_Number 101); ("url", cJSON_String "u")]))
  = ReplyError 3 (sample_range_error volume 101)
  /\ DoToolCall sample_range_error [alpha; upload] 3 "upload"
       (Some (cJSON_Object [("volume", cJSON_Number 100); ("url", cJSON_String "u")]))
     = [Schedule 3 1
          ([] ++ Property.with_value (value_int 100) volume
              :: [Property.with_value (value_string "u") url])].
Proof.
  split.
  - apply (@integer_range_enforced sample_range_error [alpha; upload] 3 "upload"
             (Some (cJSON_Object [("volume", cJSON_Number 101); ("url", cJSON_String "u")]))
             1%nat upload [] volume [url] [] 0 100 101);
      try reflexivity.
    right. reflexivity.
  - apply (@integer_range_enforced sample_range_error [alpha; upload] 3 "upload"
             (Some (cJSON_Object [("volume", cJSON_Number 100); ("url", cJSON_String "u")]))
             1%nat upload [] volume [url] [] 0 100 100);
      try reflexivity.
    split; discriminate.
Defined.

Lemma notification_never_answered_witness :
  ParseMessage sample_to_json sample_range_error "atk-robot" "1.0.0" false [alpha]
    (cJSON_Object [("jsonrpc", cJSON_String "2.0");
                   ("method", cJSON_String "notifications/initialized");
                   ("params", cJSON_Number 1)])
  = [].
Proof.
  apply (@notification_never_answered sample_to_json sample_range_error
           "atk-robot" "1.0.0" false [alpha] _ "notifications/initialized");
    reflexivity.
Defined.

Lemma unknown_method_rejected_witness :
  ParseMessage sample_to_json sample_range_error "atk-robot" "1.0.0" false [alpha]
    (make_request "resources/list" (Some (cJSON_Object [])) 9)
  = ReplyError 9 ("Method not implemented: " +++ "resources/list").
Proof.
  apply (@unknown_method_rejected sample_to_json sample_range_error
           "atk-robot" "1.0.0" false [alpha] _ "resources/list"
           (Some (cJSON_Object [])) 9).
  - apply request_sample. reflexivity.
  - discriminate.
  - discriminate.
  - discriminate.
Defined.

Lemma tools_call_shape_witness :
  ParseMessage sample_to_json sample_range_error "atk-robot" "1.0.0" false
    [alpha; snapshot]
    (make_request "tools/call"
       (Some (cJSON_Object [("name", cJSON_String "snapshot");
                            ("arguments", cJSON_Array [])])) 9)
  = ReplyError 9 "Invalid arguments".
Proof.
  apply (@tools_call_shape sample_to_json sample_range_error
           "atk-robot" "1.0.0" false [alpha; snapshot] _
           (Some (cJSON_Object [("name", cJSON_String "snapshot");
                                ("arguments", cJSON_Array [])])) 9).
  apply request_sample. reflexivity.
Defined.

Lemma tools_list_needs_true_flag_witness :
  let params := Some (cJSON_Object [("withUserTools", cJSON_Number 1)]) in
  ParseMessage sample_to_json sample_range_error "atk-robot" "1.0.0" false
    [alpha; hidden] (make_request "tools/list" params 9)
  = render sample_to_json 9 (list_reply sample_to_json [alpha; hidden] EmptyString false)
  /\ forall listed next,
       list_reply sample_to_json [alpha; hidden] EmptyString false
       = ListedTools listed next ->
       forall tool, In tool listed -> McpTool.user_only tool = false.
Proof.
  intros params.
  apply (@tools_list_needs_true_flag sample_to_json sample_range_error
           "atk-robot" "1.0.0" false [alpha; hidden] _ params 9).
  - apply request_sample. reflexivity.
  - discriminate.
  - all_close.
Defined.

Lemma initialize_answered_witness :
  let params :=
    Some (cJSON_Object
            [("capabilities",
              cJSON_Object [("vision",
                             cJSON_Object [("url", cJSON_String "http://host/explain")])])]) in
  exists config,
    ParseMessage sample_to_json sample_range_error "atk-robot" "1.0.0" true []
      (make_request "initialize" params 1)
    = config
      ++ ReplyResult 1
           ("{" +++ quoted "protocolVersion" +++ ":" +++ quoted "2024-11-05" +++ ","
            +++ quoted "capabilities" +++ ":{" +++ quoted "tools" +++ ":{}},"
            +++ quoted "serverInfo" +++ ":{" +++ quoted "name" +++ ":" +++ quoted "atk-robot"
            +++ "," +++ quoted "version" +++ ":" +++ dquote +++ "1.0.0" +++ dquote
            +++ "}}")
    /\ (config = []
        \/ (true = true /\ exists url token, config = [SetExplainUrl url token])).
Proof.
  intros params.
  apply (@initialize_answered sample_to_json sample_range_error
           "atk-robot" "1.0.0" true [] _ params 1).
  apply request_sample. reflexivity.
Defined.

(** The camera of the witness is given the address, with an empty token. *)
Lemma initialize_configures_camera :
  hd_error
    (ParseMessage sample_to_json sample_range_error "atk-robot" "1.0.0" true []
       (make_request "initialize"
          (Some (cJSON_Object
                   [("capabilities",
                     cJSON_Object [("vision",
                                    cJSON_Object [("url", cJSON_String "http://host/explain")])])]))
          1))
  = Some (SetExplainUrl "http://host/explain" EmptyString).
Proof. reflexivity. Qed.

End McpServer.
